(** * lambda-extension-hooks: the hook registry, the protocol client and the
    lifecycle controller, embedded from the JavaScript sources

    - [lib/errors.js]            -> [JsError]
    - [lib/hook-registry.js]     -> [Module HookRegistry]
    - [lib/extension-client.js]  -> [Module ExtensionClient]
    - [lib/lambda-hooks.js]      -> [Module LambdaHooks]

    The object state the three modules mutate (private fields of the
    controller, the [hooks] closure variable of the registry), the host at the
    other end of the HTTP connection, the console, the signal listeners of
    the process and the global object are gathered in one [State] record that
    every operation threads through a small error monad. *)

From Stdlib Require Import ZArith String List.
From stdpp Require Import base gmap strings list sorting.

Local Open Scope string_scope.
Local Open Scope list_scope.
Local Open Scope Z_scope.

(** ** JavaScript values *)

(** The values that reach the code paths below.  [JLambdaHookErrorClass] is
    the class exported by [lib/errors.js]; [JObject] is any other object or
    function. *)
Inductive JsVal :=
| JUndefined
| JNull
| JBool (b : bool)
| JNum (n : Z)
| JStr (s : string)
| JLambdaHookErrorClass
| JObject.

(** ToBoolean: [undefined], [null], [false], [0] and [''] are falsy. *)
Definition truthy (v : JsVal) : bool :=
  match v with
  | JUndefined | JNull => false
  | JBool b => b
  | JNum n => negb (n =? 0)
  | JStr s => negb (String.eqb s "")
  | JLambdaHookErrorClass | JObject => true
  end.

(** [v === 'text'] *)
Definition strict_eq_str (v : JsVal) (text : string) : bool :=
  match v with
  | JStr s => String.eqb s text
  | _ => false
  end.

(** [[a, b, ...].includes(v)] on an array of string literals (SameValueZero). *)
Definition includes (xs : list string) (v : JsVal) : bool :=
  existsb (strict_eq_str v) xs.

(** ** Errors ([lib/errors.js]) *)

(** [LambdaHookError(code, message, cause, isFatal = false)], next to the
    built-in errors the engine raises and to whatever else user code throws
    ([Thrown]: its text and the truthiness of its [isFatal] property). *)
Inductive JsError :=
| LambdaHookError (code message : string) (cause : Cause) (isFatal : bool)
| ReferenceError (message : string)
| TypeError (message : string)
| Thrown (message : string) (isFatal : bool)
with Cause :=
| NoCause
| CausedBy (e : JsError)
| StatusData (statusCode : Z) (body : string).

(** [error.isFatal], as a condition. *)
Definition isFatal (e : JsError) : bool :=
  match e with
  | LambdaHookError _ _ _ f => f
  | Thrown _ f => f
  | ReferenceError _ | TypeError _ => false
  end.

(** [error.code]: only a [LambdaHookError] has one. *)
Definition code_of (e : JsError) : option string :=
  match e with
  | LambdaHookError c _ _ _ => Some c
  | _ => None
  end.

Definition message_of (e : JsError) : string :=
  match e with
  | LambdaHookError _ m _ _ | ReferenceError m | TypeError m | Thrown m _ => m
  end.

Definition cause_of (e : JsError) : Cause :=
  match e with
  | LambdaHookError _ _ c _ => c
  | _ => NoCause
  end.

Definition has_code (c : string) (e : JsError) : bool :=
  match code_of e with
  | Some c' => String.eqb c c'
  | None => false
  end.

(** ** Events handed to the hooks *)

(** What [register] of the client returns and the INIT hooks receive. *)
Record RegistrationResponse := {
  extensionId : JsVal;
  functionName : JsVal;
  functionVersion : JsVal;
  handlerRef : JsVal;
  accountId : JsVal
}.

(** What [nextEvent] returns. *)
Record NextEvent := {
  eventType : JsVal;
  deadlineMs : JsVal;
  requestId : JsVal;
  invokedFunctionArn : JsVal;
  tracing : JsVal;
  shutdownReason : JsVal
}.

Inductive Event :=
| EvRegistration (r : RegistrationResponse)
| EvNext (e : NextEvent)
| EvSignal (signal : string).   (* { eventType: 'SHUTDOWN', signal } *)

(** ** Handlers *)

(** A handler is an opaque callable: called with an event, its promise is
    fulfilled or rejected at some tick of the event loop, or it never
    settles at all (nothing in the library puts a time limit on a handler;
    [tick] means nothing then). *)
Inductive Outcome :=
| Resolves
| Rejects (e : JsError)
| NeverSettles.

Record Settlement := { tick : Z; outcome : Outcome }.

Record Handler := { h_name : string; h_call : Event → Settlement }.

Record HookEntry := { handler : Handler; priority : Z }.

(** ** The host, the console and the process *)

(** One HTTP exchange as the host answers it.  [parsed_*] are the members of
    the JSON body ([undefined] when absent or when the body is not JSON). *)
Record HttpResponse := {
  statusCode : Z;
  identifierHeader : JsVal;     (* headers['lambda-extension-identifier'] *)
  rawBody : string;
  parsed_eventType : JsVal;
  parsed_deadlineMs : JsVal;
  parsed_requestId : JsVal;
  parsed_invokedFunctionArn : JsVal;
  parsed_tracing : JsVal;
  parsed_shutdownReason : JsVal;
  parsed_functionName : JsVal;
  parsed_functionVersion : JsVal;
  parsed_handler : JsVal;
  parsed_accountId : JsVal
}.

Inductive HostReply :=
| Responds (r : HttpResponse)
| ConnectionFails (e : JsError).

Inductive RequestBody :=
| NoBody
| EventsBody (events : list string)
| ErrorBody (errorMessage errorType : string).

(** The value of [this] inside a method. *)
Inductive Receiver :=
| TheController      (* an instance of class LambdaHooks *)
| TheProcess.        (* the [process] object *)

(** A function handed to [process.once]: [l_this] is [Some r] when the
    function carries its own receiver (bound or arrow function) and [None]
    when it is a plain method reference, whose [this] the caller supplies. *)
Record Listener := { l_signal : string; l_this : option Receiver }.

(** Everything observable from outside, oldest first. *)
Inductive Effect :=
| ConsoleError (label : string) (e : JsError)
| ConsoleLog (text : string)
| HttpRequest (method path : string) (headers : list (string * JsVal))
    (body : RequestBody)
| HandlerLaunched (phase : string) (h : Handler) (ev : Event)
| HandlerSettled (phase : string) (h : Handler) (o : Outcome)
| ProcessExit (code : Z).

(** ** State *)

Record State := {
  isRunning : bool;                              (* #isRunning *)
  st_extensionId : JsVal;                        (* #extensionId *)
  hooks : gmap string (list HookEntry);          (* the registry's [hooks] *)
  globalThis : gmap string JsVal;                (* properties of the global object *)
  host : list HostReply;                         (* how the host answers the coming requests *)
  listeners : list Listener;                     (* once-listeners of [process] *)
  trace : list Effect
}.

Definition set_isRunning (b : bool) (st : State) : State :=
  {| isRunning := b; st_extensionId := st_extensionId st; hooks := hooks st;
     globalThis := globalThis st; host := host st; listeners := listeners st;
     trace := trace st |}.

Definition set_extensionId (v : JsVal) (st : State) : State :=
  {| isRunning := isRunning st; st_extensionId := v; hooks := hooks st;
     globalThis := globalThis st; host := host st; listeners := listeners st;
     trace := trace st |}.

Definition set_hooks (h : gmap string (list HookEntry)) (st : State) : State :=
  {| isRunning := isRunning st; st_extensionId := st_extensionId st; hooks := h;
     globalThis := globalThis st; host := host st; listeners := listeners st;
     trace := trace st |}.

Definition set_host (h : list HostReply) (st : State) : State :=
  {| isRunning := isRunning st; st_extensionId := st_extensionId st;
     hooks := hooks st; globalThis := globalThis st; host := h;
     listeners := listeners st; trace := trace st |}.

Definition set_listeners (l : list Listener) (st : State) : State :=
  {| isRunning := isRunning st; st_extensionId := st_extensionId st;
     hooks := hooks st; globalThis := globalThis st; host := host st;
     listeners := l; trace := trace st |}.

Definition add_effects (es : list Effect) (st : State) : State :=
  {| isRunning := isRunning st; st_extensionId := st_extensionId st;
     hooks := hooks st; globalThis := globalThis st; host := host st;
     listeners := listeners st; trace := trace st ++ es |}.

(** ** The monad of the embedding *)

(** How a call ends: it returns, it throws (a rejected promise, for an async
    function), or the flow stops for good: the process exited, a signal killed
    it, or an awaited long-poll is never answered. *)
Inductive Stop :=
| Exit (code : Z)
| Killed (signal : string)
| Blocked.

Inductive Completion (A : Type) :=
| Normal (a : A)
| Throw (e : JsError)
| Halted (s : Stop).
Arguments Normal {A} a.
Arguments Throw {A} e.
Arguments Halted {A} s.

Definition M (A : Type) : Type := State → Completion A * State.

Definition ret {A} (a : A) : M A := λ st, (Normal a, st).

Definition bind {A B} (m : M A) (k : A → M B) : M B :=
  λ st,
    match m st with
    | (Normal a, st') => k a st'
    | (Throw e, st') => (Throw e, st')
    | (Halted s, st') => (Halted s, st')
    end.

Declare Scope js_scope.
Delimit Scope js_scope with js.
Notation "x <- m ;; k" := (bind m (λ x, k))
  (at level 100, m at next level, right associativity) : js_scope.
Notation "m ;; k" := (bind m (λ _, k))
  (at level 100, right associativity) : js_scope.
Local Open Scope js_scope.

Definition throw {A} (e : JsError) : M A := λ st, (Throw e, st).
Definition halt {A} (s : Stop) : M A := λ st, (Halted s, st).
Definition get : M State := λ st, (Normal st, st).
Definition modify (f : State → State) : M unit := λ st, (Normal tt, f st).
Definition emit (es : list Effect) : M unit := modify (add_effects es).

(** [try { m } catch (error) { h error }] *)
Definition try_catch {A} (m : M A) (h : JsError → M A) : M A :=
  λ st,
    match m st with
    | (Throw e, st') => h e st'
    | r => r
    end.

(** [try { m } finally { f }]: [f] runs whether [m] returned or threw, and
    its own abrupt completion replaces the one of [m]. *)
Definition try_finally {A} (m : M A) (f : M unit) : M A :=
  λ st,
    match m st with
    | (Halted s, st') => (Halted s, st')
    | (r, st') =>
        match f st' with
        | (Normal _, st'') => (r, st'')
        | (Throw e, st'') => (Throw e, st'')
        | (Halted s, st'') => (Halted s, st'')
        end
    end.

(** [list.forEach(f)] *)
Fixpoint forEach {A} (f : A → M unit) (l : list A) : M unit :=
  match l with
  | [] => ret tt
  | x :: l' => f x ;; forEach f l'
  end.

Definition console_error (label : string) (e : JsError) : M unit :=
  emit [ConsoleError label e].

Definition console_log (text : string) : M unit :=
  emit [ConsoleLog text].

(** [process.exit(code)] *)
Definition process_exit {A} (code : Z) : M A :=
  emit [ProcessExit code] ;; halt (Exit code).

(** An identifier that no enclosing function or module scope declares is
    looked up on the global object; all three modules are ES modules, hence
    strict, and reading such an identifier throws when the global object has
    no property of that name. *)
Definition global_reference (x : string) : M JsVal :=
  λ st,
    match globalThis st !! x with
    | Some v => (Normal v, st)
    | None => (Throw (ReferenceError (x +:+ " is not defined")), st)
    end.

(** [Array.prototype.sort(comparefn)]: the sort is stable, and for a
    consistent comparator every stable sort returns the same array; this one
    inserts each element before the first element it does not have to follow
    ([comparefn x y > 0] means that [x] goes after [y]). *)
Fixpoint sort_insert {A} (comparefn : A → A → Z) (x : A) (l : list A) : list A :=
  match l with
  | [] => [x]
  | y :: l' =>
      if 0 <? comparefn x y then y :: sort_insert comparefn x l'
      else x :: y :: l'
  end.

Fixpoint Array_sort {A} (comparefn : A → A → Z) (l : list A) : list A :=
  match l with
  | [] => []
  | x :: l' => sort_insert comparefn x (Array_sort comparefn l')
  end.

(** ** [lib/hook-registry.js] *)

Module HookRegistry.

(** The object literal [{ INIT: [], INVOKE: [], SHUTDOWN: [] }]. *)
Definition createHookRegistry : gmap string (list HookEntry) :=
  <["INIT" := []]> (<["INVOKE" := []]> (<["SHUTDOWN" := []]> ∅)).

(** [hooks] is a plain object: a key it does not own is looked up on
    [Object.prototype].  The table gives the [length] of each member (all
    are functions, except the accessor [__proto__], which yields
    [Object.prototype] itself). *)
Definition Object_prototype : list (string * JsVal) :=
  [ ("constructor", JNum 1); ("hasOwnProperty", JNum 1);
    ("isPrototypeOf", JNum 1); ("propertyIsEnumerable", JNum 1);
    ("toLocaleString", JNum 0); ("toString", JNum 0); ("valueOf", JNum 0);
    ("__defineGetter__", JNum 2); ("__defineSetter__", JNum 2);
    ("__lookupGetter__", JNum 1); ("__lookupSetter__", JNum 1);
    ("__proto__", JUndefined) ].

(** [hooks[eventType]] *)
Inductive Property :=
| OwnArray (entries : list HookEntry)
| Inherited (length : JsVal)
| Undefined.

Definition property (h : gmap string (list HookEntry)) (key : string) : Property :=
  match h !! key with
  | Some entries => OwnArray entries
  | None =>
      match find (λ m, String.eqb (fst m) key) Object_prototype with
      | Some m => Inherited (snd m)
      | None => Undefined
      end
  end.

(** The [options] argument; a priority is an integer or is absent. *)
Record Options := { opt_priority : option Z }.

(** One registered item, as the [typeof] tests of [register] sort it:
    a function; a non-null object, with its [handler] property when that
    is a function and with its [priority] property; anything else. *)
Inductive Item :=
| Function (f : Handler)
| Object (handler_prop : option Handler) (priority_prop : option Z)
| Primitive (v : JsVal).

(** The [handler] argument: [Array.isArray(handler)] or not. *)
Inductive HandlerArg :=
| ArrayOf (items : list Item)
| Single (item : Item).

Definition truthy_num (v : option Z) : bool :=
  match v with
  | Some n => negb (n =? 0)
  | None => false
  end.

(** [a || b] *)
Definition js_or (a b : option Z) : option Z :=
  if truthy_num a then a else b.

(** [a || 0] *)
Definition or_zero (a : option Z) : Z :=
  default 0 (js_or a (Some 0)).

(** Every name the file declares: its one export, the closure variable, and
    the parameters and locals of the functions.  The file has no [import]. *)
Definition declared_in_registry : list string :=
  [ "createHookRegistry"; "hooks"; "eventType"; "handler"; "options"; "item";
    "event"; "hookPromises"; "error"; "a"; "b" ].

(** [new LambdaHookError(code, message, cause)] as this module evaluates
    it: [LambdaHookError] is none of [declared_in_registry], so the
    identifier is a reference to the global object. *)
Definition new_LambdaHookError (code message : string) (cause : Cause) : M JsError :=
  c <- global_reference "LambdaHookError" ;;
  match c with
  | JLambdaHookErrorClass => ret (LambdaHookError code message cause false)
  | _ => throw (TypeError "LambdaHookError is not a constructor")
  end.

Definition throw_new {A} (code message : string) (cause : Cause) : M A :=
  e <- new_LambdaHookError code message cause ;; throw e.

(** [hooks[eventType].push(entry)] *)
Definition push (eventType : string) (entry : HookEntry) : M unit :=
  st <- get ;;
  match property (hooks st) eventType with
  | OwnArray entries =>
      modify (set_hooks (<[eventType := entries ++ [entry]]> (hooks st)))
  | _ => throw (TypeError "hooks[eventType].push is not a function")
  end.

(** The three branches shared by the array loop (lines 37-55) and by the
    single-argument case (lines 59-77); they differ in the message only. *)
Definition register_item (eventType : string) (options : Options)
    (message : string) (item : Item) : M unit :=
  match item with
  | Object (Some f) p =>
      push eventType
        {| handler := f;
           priority := or_zero (js_or p (opt_priority options)) |}
  | Function f =>
      push eventType
        {| handler := f; priority := or_zero (opt_priority options) |}
  | _ => throw_new "INVALID_HANDLER" message NoCause
  end.

(** [(a, b) => b.priority - a.priority] *)
Definition by_priority (a b : HookEntry) : Z := priority b - priority a.

(** [hooks[eventType].sort(...)] *)
Definition sort_hooks (eventType : string) : M unit :=
  st <- get ;;
  match property (hooks st) eventType with
  | OwnArray entries =>
      modify (set_hooks (<[eventType := Array_sort by_priority entries]> (hooks st)))
  | _ => throw (TypeError "hooks[eventType].sort is not a function")
  end.

Definition register (eventType : string) (handler : HandlerArg)
    (options : Options) : M unit :=
  st <- get ;;
  match property (hooks st) eventType with
  | Undefined =>
      throw_new "INVALID_EVENT_TYPE" ("Invalid event type: " +:+ eventType) NoCause
  | _ =>
      match handler with
      | ArrayOf items =>
          forEach
            (register_item eventType options
               "Each item in the array must be a function or an object with a handler function")
            items
      | Single item =>
          register_item eventType options
            "Handler must be a function, an array of functions, or an object with a handler function"
            item
      end ;;
      sort_hooks eventType
  end.

(** The promise of one hook (the async arrow given to [map]) when its
    handler settles: [None] when fulfilled, the rejection otherwise.  For a
    handler that never settles nothing happens. *)
Definition hook_promise (eventType : string)
    (run : HookEntry * Settlement) : M (option JsError) :=
  match outcome (snd run) with
  | NeverSettles => ret None
  | Resolves =>
      emit [HandlerSettled eventType (handler (fst run)) Resolves] ;; ret None
  | Rejects error =>
      emit [HandlerSettled eventType (handler (fst run)) (Rejects error)] ;;
      console_error ("Error executing " +:+ eventType +:+ " hook:") error ;;
      try_catch
        (throw_new "HOOK_EXECUTION_ERROR"
           ("Error executing " +:+ eventType +:+ " hook") (CausedBy error))
        (λ rejection, ret (Some rejection))
  end.

Definition never_settles (o : Outcome) : bool :=
  match o with
  | NeverSettles => true
  | _ => false
  end.

(** The hooks settle one after the other, in the order [runs] lists them.
    The result is what [Promise.all] needs: the first rejection, if any, and
    whether some hook is left pending for ever.  No hook is cancelled: the
    later ones settle too. *)
Fixpoint settle (eventType : string) (runs : list (HookEntry * Settlement))
    : M (option JsError * bool) :=
  match runs with
  | [] => ret (None, false)
  | run :: runs' =>
      r <- hook_promise eventType run ;;
      later <- settle eventType runs' ;;
      ret (match r with Some e => Some e | None => fst later end,
           never_settles (outcome (snd run)) || snd later)
  end.

(** Earlier tick first; hooks settling at the same tick keep their launch
    order. *)
Definition by_tick (a b : HookEntry * Settlement) : Z :=
  tick (snd a) - tick (snd b).

Definition executeHooks (eventType : string) (event : Event) : M unit :=
  st <- get ;;
  match property (hooks st) eventType with
  | Undefined => ret tt
  | Inherited len =>
      match len with
      | JNum 0 => ret tt
      | _ => throw (TypeError "hooks[eventType].map is not a function")
      end
  | OwnArray [] => ret tt
  | OwnArray entries =>
      emit (map (λ e, HandlerLaunched eventType (handler e) event) entries) ;;
      settled <-
        settle eventType
          (Array_sort by_tick (map (λ e, (e, h_call (handler e) event)) entries)) ;;
      (* [await Promise.all(hookPromises)]: rejected by the first rejection,
         fulfilled when every hook is, pending otherwise *)
      match settled with
      | (Some e, _) => throw e
      | (None, true) => halt Blocked
      | (None, false) => ret tt
      end
  end.

End HookRegistry.

(** ** [lib/extension-client.js] *)

(** The object [createExtensionClient] returns, as the controller uses it. *)
Record Client := {
  client_register : list string → M RegistrationResponse;
  client_nextEvent : JsVal → M NextEvent;
  client_reportInitError : JsError → M unit;
  client_reportExitError : JsError → M unit
}.

Module ExtensionClient.

Record Options := { extensionName : JsVal; includeAccountId : JsVal }.

(** The names declared in the scopes that enclose the bodies of
    [reportInitError] and [reportExitError]: the parameter, the locals of
    the function, those of [createExtensionClient] and the module's. *)
Definition declared_around_report : list string :=
  [ "error"; "errorType"; "errorMessage";
    "options"; "extensionName"; "extensionType"; "includeAccountId";
    "apiBaseUrl"; "makeRequest";
    "http"; "URL"; "LambdaHookError"; "createExtensionClient" ].

Definition is_2xx (status : Z) : bool := (200 <=? status) && (status <? 300).

(** One exchange with the host.  An empty [host] is a request that is
    never answered.  (The message of API_ERROR goes on with the status
    code, which its cause carries as well.) *)
Definition makeRequest (method path : string) (headers : list (string * JsVal))
    (body : RequestBody) : M HttpResponse :=
  emit [HttpRequest method path headers body] ;;
  st <- get ;;
  match host st with
  | [] => halt Blocked
  | reply :: rest =>
      modify (set_host rest) ;;
      match reply with
      | Responds res =>
          if is_2xx (statusCode res) then ret res
          else
            throw (LambdaHookError "API_ERROR" "API request failed"
                     (StatusData (statusCode res) (rawBody res)) false)
      | ConnectionFails error =>
          throw (LambdaHookError "NETWORK_ERROR" "Network error during API request"
                   (CausedBy error) false)
      end
  end.

Definition register (options : Options) (events : list string)
    : M RegistrationResponse :=
  let headers :=
    ("Lambda-Extension-Name", extensionName options)
    :: (if truthy (includeAccountId options)
        then [("Lambda-Extension-Accept-Feature", JStr "accountId")]
        else []) in
  response <- makeRequest "POST" "register" headers (EventsBody events) ;;
  if negb (truthy (identifierHeader response)) then
    throw (LambdaHookError "INVALID_RESPONSE"
             "Extension ID not received in registration response" NoCause false)
  else
    ret {| extensionId := identifierHeader response;
           functionName := parsed_functionName response;
           functionVersion := parsed_functionVersion response;
           handlerRef := parsed_handler response;
           accountId := parsed_accountId response |}.

Definition nextEvent (extensionId : JsVal) : M NextEvent :=
  if negb (truthy extensionId) then
    throw (LambdaHookError "INVALID_STATE"
             "Extension ID is required for next event" NoCause false)
  else
    response <-
      makeRequest "GET" "event/next"
        [("Lambda-Extension-Identifier", extensionId)] NoBody ;;
    ret {| eventType := parsed_eventType response;
           deadlineMs := parsed_deadlineMs response;
           requestId := parsed_requestId response;
           invokedFunctionArn := parsed_invokedFunctionArn response;
           tracing := parsed_tracing response;
           shutdownReason := parsed_shutdownReason response |}.

(** [error.code || 'Extension.UnknownReason'] *)
Definition errorType_of (error : JsError) : string :=
  match code_of error with
  | Some c => if String.eqb c "" then "Extension.UnknownReason" else c
  | None => "Extension.UnknownReason"
  end.

(** [error.message || 'Unknown error'] *)
Definition errorMessage_of (error : JsError) : string :=
  if String.eqb (message_of error) "" then "Unknown error" else message_of error.

(** The common body of the two reports.  The functions take [error] only:
    [extensionId] is none of [declared_around_report], so it is a reference
    to the global object. *)
Definition report (path not_registered : string) (error : JsError) : M unit :=
  extensionId <- global_reference "extensionId" ;;
  if negb (truthy extensionId) then
    throw (LambdaHookError "INVALID_STATE" not_registered NoCause false)
  else
    makeRequest "POST" path
      [("Lambda-Extension-Identifier", extensionId);
       ("Lambda-Extension-Function-Error-Type", JStr (errorType_of error))]
      (ErrorBody (errorMessage_of error) (errorType_of error)) ;;
    ret tt.

Definition reportInitError : JsError → M unit :=
  report "init/error" "Cannot report init error: Extension not registered".

Definition reportExitError : JsError → M unit :=
  report "exit/error" "Cannot report exit error: Extension not registered".

Definition createExtensionClient (options : Options) : Client :=
  {| client_register := register options;
     client_nextEvent := nextEvent;
     client_reportInitError := reportInitError;
     client_reportExitError := reportExitError |}.

End ExtensionClient.

(** ** [lib/lambda-hooks.js] *)

Module LambdaHooks.

Record Options := {
  extensionName : JsVal;
  extensionType : JsVal;
  initLoad : JsVal;
  includeAccountId : JsVal
}.

(** The fields the constructor sets once; [#isRunning], [#extensionId] and
    the registry are in [State]. *)
Record Instance := {
  i_extensionType : JsVal;
  i_initLoad : JsVal;
  i_extensionClient : Client
}.

(** [includeAccountId = false] in the destructuring pattern *)
Definition or_default (d v : JsVal) : JsVal :=
  match v with
  | JUndefined => d
  | _ => v
  end.

(** The second and the third message go on with the offending value and
    the values allowed; that tail is left out. *)
Definition constructor (options : Options) : Completion Instance :=
  if negb (truthy (extensionName options)) then
    Throw (LambdaHookError "INIT_ERROR" "Extension name is required" NoCause false)
  else if negb (includes ["internal"; "external"] (extensionType options)) then
    Throw (LambdaHookError "INIT_ERROR" "Invalid extension type" NoCause false)
  else if negb (includes ["before"; "after"] (initLoad options)) then
    Throw (LambdaHookError "INIT_ERROR" "Invalid init event load behavior" NoCause false)
  else
    Normal
      {| i_extensionType := extensionType options;
         i_initLoad := initLoad options;
         i_extensionClient :=
           ExtensionClient.createExtensionClient
             {| ExtensionClient.extensionName := extensionName options;
                ExtensionClient.includeAccountId :=
                  or_default (JBool false) (includeAccountId options) |} |}.

(** The mutable part of a fresh instance, in a process with the global
    object [g] and a host that will answer [replies]. *)
Definition fresh (g : gmap string JsVal) (replies : list HostReply) : State :=
  {| isRunning := false;
     st_extensionId := JNull;
     hooks := HookRegistry.createHookRegistry;
     globalThis := g;
     host := replies;
     listeners := [];
     trace := [] |}.


Definition onInvoke (handler : HookRegistry.HandlerArg)
    (options : HookRegistry.Options) : M unit :=
  HookRegistry.register "INVOKE" handler options.

Definition onShutdown (handler : HookRegistry.HandlerArg)
    (options : HookRegistry.Options) : M unit :=
  HookRegistry.register "SHUTDOWN" handler options.

(** [process.once(signal, this.#handleSignal)]: the listener is the method
    itself, without a receiver. *)
Definition process_once (signal : string) : M unit :=
  st <- get ;;
  modify (set_listeners (listeners st ++ [{| l_signal := signal; l_this := None |}])).

Inductive LoopStep := Break | Continue.

Inductive LoopEnd :=
| Finished      (* the [while] was left *)
| Iterating.    (* it was still going when the fuel ran out *)

Section Controller.

Variable self : Instance.

Definition handleInvoke (event : Event) : M unit :=
  try_catch (HookRegistry.executeHooks "INVOKE" event)
    (λ error, console_error "Error executing invoke hooks:" error).

Definition handleShutdown (event : Event) : M unit :=
  try_finally
    (try_catch (HookRegistry.executeHooks "SHUTDOWN" event)
       (λ error, console_error "Error executing shutdown hooks:" error))
    (modify (set_isRunning false)).

(** [this.#handleShutdown]: a private method is found on instances of
    the class only. *)
Definition private_handleShutdown (this : Receiver) (event : Event) : M unit :=
  match this with
  | TheController => handleShutdown event
  | TheProcess =>
      throw (TypeError "Receiver must be an instance of class LambdaHooks")
  end.

Definition handleSignal (this : Receiver) (signal : string) : M unit :=
  console_log ("Received " +:+ signal +:+ ", Gracefully shutting down...") ;;
  try_finally (private_handleShutdown this (EvSignal signal)) (process_exit 0).

(** The [try] block of the loop body (lines 139-148). *)
Definition poll_and_dispatch : M LoopStep :=
  st <- get ;;
  event <- client_nextEvent (i_extensionClient self) (st_extensionId st) ;;
  if strict_eq_str (eventType event) "SHUTDOWN" then
    handleShutdown (EvNext event) ;; ret Break
  else if strict_eq_str (eventType event) "INVOKE" then
    handleInvoke (EvNext event) ;; ret Continue
  else ret Continue.

(** Its [catch] block (lines 149-165). *)
Definition on_loop_error (error : JsError) : M LoopStep :=
  console_error "Error in event loop:" error ;;
  if isFatal error then
    try_catch (client_reportExitError (i_extensionClient self) error)
      (λ reportError, console_error "Failed to report exit error:" reportError) ;;
    modify (set_isRunning false) ;;
    ret Break
  else ret Continue.

Fixpoint startEventLoop (fuel : nat) : M LoopEnd :=
  match fuel with
  | O => ret Iterating
  | S fuel' =>
      st <- get ;;
      if isRunning st then
        step <- try_catch poll_and_dispatch on_loop_error ;;
        match step with
        | Break => ret Finished
        | Continue => startEventLoop fuel'
        end
      else ret Finished
  end.

(** [start()] up to the call that launches the loop; the loop itself is
    [startEventLoop], which runs on after [start] has returned. *)
Definition start : M unit :=
  st <- get ;;
  if isRunning st then
    throw (LambdaHookError "ALREADY_RUNNING" "Extension is already running"
             NoCause false)
  else
    try_catch
      (registrationResponse <-
         client_register (i_extensionClient self)
           (if strict_eq_str (i_extensionType self) "internal"
            then ["INVOKE"] else ["INVOKE"; "SHUTDOWN"]) ;;
       modify (set_extensionId (extensionId registrationResponse)) ;;
       (if strict_eq_str (i_initLoad self) "after" then
          client_nextEvent (i_extensionClient self)
            (extensionId registrationResponse) ;; ret tt
        else ret tt) ;;
       HookRegistry.executeHooks "INIT" (EvRegistration registrationResponse) ;;
       process_once "SIGINT" ;;
       process_once "SIGTERM" ;;
       modify (set_isRunning true))
      (λ error,
         let wrappedError :=
           LambdaHookError "EXTENSION_REGISTRATION_FAILED"
             "Failed to register extension with Lambda" (CausedBy error) false in
         try_catch
           (client_reportInitError (i_extensionClient self) wrappedError)
           (λ reportError,
              console_error "Failed to report initialization error:" reportError) ;;
         throw wrappedError).

(** The process receives [signal]: the once-listeners of that signal are
    removed and called with [this] set to the emitter, unless they carry
    a receiver of their own; with no listener the signal has its default
    action. *)
Definition deliver (signal : string) : M unit :=
  st <- get ;;
  match filter (λ l, l_signal l = signal) (listeners st) with
  | [] => halt (Killed signal)
  | called =>
      modify (set_listeners (filter (λ l, l_signal l ≠ signal) (listeners st))) ;;
      forEach (λ l, handleSignal (default TheProcess (l_this l)) signal) called
  end.

End Controller.

End LambdaHooks.

(** ** Vocabulary of the statements *)

(** Sorting by an integer key, larger keys first: the comparator and the
    order it produces. *)
Definition descending {A} (key : A → Z) (a b : A) : Z := key b - key a.
Definition not_before {A} (key : A → Z) (a b : A) : Prop := key b ≤ key a.

(** The handlers [executeHooks] launched for [phase], in launch order. *)
Definition launched (phase : string) (es : list Effect) : list Handler :=
  flat_map
    (λ e, match e with
          | HandlerLaunched p h _ => if String.eqb p phase then [h] else []
          | _ => []
          end) es.

(** The handlers that ran to their end, with how they ended. *)
Definition settled (es : list Effect) : list (Handler * Outcome) :=
  flat_map
    (λ e, match e with
          | HandlerSettled _ h o => [(h, o)]
          | _ => []
          end) es.

(** The requests sent to the host. *)
Definition requests (es : list Effect) : list (string * string) :=
  flat_map
    (λ e, match e with
          | HttpRequest method path _ _ => [(method, path)]
          | _ => []
          end) es.

(** The call threw an error whose [code] is the given one. *)
Definition fails_with {A} (code : string) (c : Completion A) : bool :=
  match c with
  | Throw e => has_code code e
  | _ => false
  end.

Definition rejects (o : Outcome) : bool :=
  match o with
  | Rejects _ => true
  | Resolves | NeverSettles => false
  end.

(** The errors written by [console.error] under a label. *)
Definition logged (label : string) (es : list Effect) : list JsError :=
  flat_map
    (λ e, match e with
          | ConsoleError l error => if String.eqb l label then [error] else []
          | _ => []
          end) es.

(** Some handler of the phase rejects on the event; some handler of the
    phase never settles on it. *)
Definition some_rejects (phase : string) (event : Event) (st : State) : bool :=
  existsb (λ e, rejects (outcome (h_call (handler e) event)))
    (default [] (hooks st !! phase)).

Definition some_pending (phase : string) (event : Event) (st : State) : bool :=
  existsb (λ e, HookRegistry.never_settles (outcome (h_call (handler e) event)))
    (default [] (hooks st !! phase)).

(** [Promise.all] over the hooks of the phase settles: one of them rejects,
    or all of them resolve. *)
Definition dispatch_settles (phase : string) (event : Event) (st : State) : bool :=
  some_rejects phase event st || negb (some_pending phase event st).

(** What [throw new LambdaHookError(...)] throws in the registry module under
    the global object [g]. *)
Definition thrown_by_new (g : gmap string JsVal) (code message : string)
    (cause : Cause) : JsError :=
  match g !! "LambdaHookError" with
  | None => ReferenceError "LambdaHookError is not defined"
  | Some JLambdaHookErrorClass => LambdaHookError code message cause false
  | Some _ => TypeError "LambdaHookError is not a constructor"
  end.

(** The entry [register] stores for an item it accepts. *)
Definition entry_of (options : HookRegistry.Options) (item : HookRegistry.Item)
    : option HookEntry :=
  match item with
  | HookRegistry.Object (Some f) p =>
      Some {| handler := f;
              priority := HookRegistry.or_zero
                            (HookRegistry.js_or p (HookRegistry.opt_priority options)) |}
  | HookRegistry.Function f =>
      Some {| handler := f;
              priority := HookRegistry.or_zero (HookRegistry.opt_priority options) |}
  | _ => None
  end.

(** The entries of the items that precede the first one [register] refuses. *)
Fixpoint accepted_prefix (options : HookRegistry.Options)
    (items : list HookRegistry.Item) : list HookEntry :=
  match items with
  | [] => []
  | item :: items' =>
      match entry_of options item with
      | Some e => e :: accepted_prefix options items'
      | None => []
      end
  end.

Definition items_of (handler : HookRegistry.HandlerArg) : list HookRegistry.Item :=
  match handler with
  | HookRegistry.ArrayOf items => items
  | HookRegistry.Single item => [item]
  end.

Definition all_accepted (options : HookRegistry.Options)
    (handler : HookRegistry.HandlerArg) : bool :=
  forallb (λ item, bool_decide (is_Some (entry_of options item))) (items_of handler).

(** A registration call, and a sequence of them into one phase made by a
    caller that goes on after a call that threw. *)
Record Call := {
  c_handler : HookRegistry.HandlerArg;
  c_options : HookRegistry.Options
}.

Definition register_all (phase : string) (calls : list Call) (st : State) : State :=
  fold_left
    (λ st c, snd (HookRegistry.register phase (c_handler c) (c_options c) st))
    calls st.

(** Every entry the calls appended, in registration order. *)
Definition registration_log (calls : list Call) : list HookEntry :=
  flat_map (λ c, accepted_prefix (c_options c) (items_of (c_handler c))) calls.

(** One hook of a dispatch with the way its handler settles, the effects of
    that settlement, and the rejection of the hook's promise if any. *)
Definition run_of (event : Event) (entry : HookEntry) : HookEntry * Settlement :=
  (entry, h_call (handler entry) event).

Definition settlement_effects (phase : string) (run : HookEntry * Settlement)
    : list Effect :=
  match outcome (snd run) with
  | NeverSettles => []
  | Resolves => [HandlerSettled phase (handler (fst run)) Resolves]
  | Rejects error =>
      [HandlerSettled phase (handler (fst run)) (Rejects error);
       ConsoleError ("Error executing " +:+ phase +:+ " hook:") error]
  end.

Definition rejection_of (g : gmap string JsVal) (phase : string)
    (run : HookEntry * Settlement) : option JsError :=
  match outcome (snd run) with
  | Resolves | NeverSettles => None
  | Rejects error =>
      Some (thrown_by_new g "HOOK_EXECUTION_ERROR"
              ("Error executing " +:+ phase +:+ " hook") (CausedBy error))
  end.

(** Everything one [executeHooks] on the entries does: the launches in list
    order, then the settlements in tick order. *)
Definition dispatch_effects (phase : string) (event : Event)
    (entries : list HookEntry) : list Effect :=
  map (λ e, HandlerLaunched phase (handler e) event) entries
  ++ flat_map (settlement_effects phase)
       (Array_sort HookRegistry.by_tick (map (run_of event) entries)).

Definition dispatch_result (g : gmap string JsVal) (phase : string) (event : Event)
    (entries : list HookEntry) : Completion unit :=
  match head (omap (rejection_of g phase)
                (Array_sort HookRegistry.by_tick (map (run_of event) entries))) with
  | Some e => Throw e
  | None =>
      if existsb (λ e, HookRegistry.never_settles (outcome (h_call (handler e) event)))
           entries
      then Halted Blocked
      else Normal tt
  end.

(** The claim of the specification on launch order, for one registry state:
    the entries of the phase, which are launched in list order, never go
    from a lower priority to a higher one. *)
Definition launch_order_by_priority (phase : string) (st : State) : Prop :=
  ∃ entries, hooks st !! phase = Some entries
    ∧ Sorted (not_before priority) entries.

(** ** Sample data of the examples *)

Definition resolves_at (t : Z) : Event → Settlement :=
  λ _, {| tick := t; outcome := Resolves |}.

Definition rejects_at (t : Z) (e : JsError) : Event → Settlement :=
  λ _, {| tick := t; outcome := Rejects e |}.

Definition handler_A : Handler := {| h_name := "A"; h_call := resolves_at 3 |}.
Definition handler_B : Handler := {| h_name := "B"; h_call := resolves_at 2 |}.
Definition handler_C : Handler := {| h_name := "C"; h_call := resolves_at 1 |}.

Definition boom : JsError := Thrown "boom" false.

Definition handler_failing : Handler :=
  {| h_name := "failing"; h_call := rejects_at 1 boom |}.

(** A handler whose promise stays pending, as [() => new Promise(() => {})]. *)
Definition handler_hanging : Handler :=
  {| h_name := "hanging";
     h_call := λ _, {| tick := 0; outcome := NeverSettles |} |}.

Definition no_options : HookRegistry.Options :=
  {| HookRegistry.opt_priority := None |}.

Definition default_priority (p : Z) : HookRegistry.Options :=
  {| HookRegistry.opt_priority := Some p |}.

(** [{ handler: h, priority: p }] *)
Definition with_priority (h : Handler) (p : Z) : HookRegistry.Item :=
  HookRegistry.Object (Some h) (Some p).

(** A process whose global object has neither an [extensionId] nor a
    [LambdaHookError] property, as Node's has not. *)
Definition node_globals : gmap string JsVal := ∅.

Definition sample_event : Event := EvSignal "SIGTERM".

Definition sample_options : LambdaHooks.Options :=
  {| LambdaHooks.extensionName := JStr "my-extension";
     LambdaHooks.extensionType := JStr "external";
     LambdaHooks.initLoad := JStr "before";
     LambdaHooks.includeAccountId := JUndefined |}.

(** The instance [new LambdaHooks(sample_options)] builds. *)
Definition sample_instance : LambdaHooks.Instance :=
  {| LambdaHooks.i_extensionType := JStr "external";
     LambdaHooks.i_initLoad := JStr "before";
     LambdaHooks.i_extensionClient :=
       ExtensionClient.createExtensionClient
         {| ExtensionClient.extensionName := JStr "my-extension";
            ExtensionClient.includeAccountId := JBool false |} |}.

Definition reply (status : Z) (identifier eventType : JsVal) : HostReply :=
  Responds
    {| statusCode := status;
       identifierHeader := identifier;
       rawBody := "";
       parsed_eventType := eventType;
       parsed_deadlineMs := JNum 1596036475071;
       parsed_requestId := JUndefined;
       parsed_invokedFunctionArn := JUndefined;
       parsed_tracing := JUndefined;
       parsed_shutdownReason := JUndefined;
       parsed_functionName := JStr "my-function";
       parsed_functionVersion := JStr "$LATEST";
       parsed_handler := JStr "index.handler";
       parsed_accountId := JUndefined |}.

Definition registered_reply : HostReply := reply 200 (JStr "id-1") JUndefined.
Definition invoke_reply : HostReply := reply 200 JUndefined (JStr "INVOKE").
Definition shutdown_reply : HostReply := reply 200 JUndefined (JStr "SHUTDOWN").

(** The event [nextEvent] makes of [shutdown_reply]. *)
Definition shutdown_event : NextEvent :=
  {| eventType := JStr "SHUTDOWN";
     deadlineMs := JNum 1596036475071;
     requestId := JUndefined;
     invokedFunctionArn := JUndefined;
     tracing := JUndefined;
     shutdownReason := JUndefined |}.

(** A client whose poll fails with the given error; the rest is the client
    of the library. *)
Definition client_failing_poll (error : JsError) : Client :=
  {| client_register := ExtensionClient.register
                          {| ExtensionClient.extensionName := JStr "my-extension";
                             ExtensionClient.includeAccountId := JBool false |};
     client_nextEvent := λ _, throw error;
     client_reportInitError := ExtensionClient.reportInitError;
     client_reportExitError := ExtensionClient.reportExitError |}.

Definition instance_failing_poll (error : JsError) : LambdaHooks.Instance :=
  {| LambdaHooks.i_extensionType := JStr "external";
     LambdaHooks.i_initLoad := JStr "before";
     LambdaHooks.i_extensionClient := client_failing_poll error |}.

(** The controller after [onShutdown(handler)] and a [start()] that the
    host answered: registered, INIT hooks run, listeners installed, running. *)
Definition running_with (handler : Handler) (polls : list HostReply) : State :=
  snd (LambdaHooks.start sample_instance
         (snd (LambdaHooks.onShutdown
                 (HookRegistry.Single (HookRegistry.Function handler)) no_options
                 (LambdaHooks.fresh node_globals (registered_reply :: polls))))).

Definition already_running : JsError :=
  LambdaHookError "ALREADY_RUNNING" "Extension is already running" NoCause false.


(** ** Vocabulary of the further properties *)

(** An item [register] accepts: a function, or an object whose [handler]
    is one. *)
Definition acceptable (item : HookRegistry.Item) : Prop :=
  match item with
  | HookRegistry.Function _ | HookRegistry.Object (Some _) _ => True
  | _ => False
  end.

(** The names [Object.prototype] gives to every plain object. *)
Definition inherited_keys : list string := map fst HookRegistry.Object_prototype.

(** How the host's next reply makes [makeRequest] end. *)
Definition answer (replies : list HostReply) : Completion HttpResponse :=
  match replies with
  | [] => Halted Blocked
  | Responds res :: _ =>
      if ExtensionClient.is_2xx (statusCode res) then Normal res
      else Throw (LambdaHookError "API_ERROR" "API request failed"
                    (StatusData (statusCode res) (rawBody res)) false)
  | ConnectionFails error :: _ =>
      Throw (LambdaHookError "NETWORK_ERROR" "Network error during API request"
               (CausedBy error) false)
  end.

(** The state after the exchanges and the logging of client code: [es] was
    added to the trace, [replies] is what the host has left to say, and
    nothing else moved. *)
Definition after_io (es : list Effect) (replies : list HostReply) (st : State) : State :=
  set_host replies (add_effects es st).

Definition poll_request (extensionId : JsVal) : Effect :=
  HttpRequest "GET" "event/next" [("Lambda-Extension-Identifier", extensionId)] NoBody.

Definition register_request (options : ExtensionClient.Options)
    (events : list string) : Effect :=
  HttpRequest "POST" "register"
    (("Lambda-Extension-Name", ExtensionClient.extensionName options)
     :: (if truthy (ExtensionClient.includeAccountId options)
         then [("Lambda-Extension-Accept-Feature", JStr "accountId")]
         else []))
    (EventsBody events).

(** The event [nextEvent] reads off a response. *)
Definition event_of (res : HttpResponse) : NextEvent :=
  {| eventType := parsed_eventType res;
     deadlineMs := parsed_deadlineMs res;
     requestId := parsed_requestId res;
     invokedFunctionArn := parsed_invokedFunctionArn res;
     tracing := parsed_tracing res;
     shutdownReason := parsed_shutdownReason res |}.

(** The registration [register] reads off a response. *)
Definition registration_of (res : HttpResponse) : RegistrationResponse :=
  {| extensionId := identifierHeader res;
     functionName := parsed_functionName res;
     functionVersion := parsed_functionVersion res;
     handlerRef := parsed_handler res;
     accountId := parsed_accountId res |}.

(** The entries of a phase, none when the registry has no such phase. *)
Definition entries_of (phase : string) (st : State) : list HookEntry :=
  default [] (hooks st !! phase).

(** What one poll of the loop comes to, by the reply of the host. *)
Inductive PollKind :=
| PollFails             (* no 2xx response *)
| PollInvoke            (* an event with eventType 'INVOKE' *)
| PollShutdown          (* an event with eventType 'SHUTDOWN' *)
| PollOther.            (* an event of any other type *)

Definition poll_kind (reply : HostReply) : PollKind :=
  match reply with
  | ConnectionFails _ => PollFails
  | Responds res =>
      if ExtensionClient.is_2xx (statusCode res) then
        if strict_eq_str (parsed_eventType res) "SHUTDOWN" then PollShutdown
        else if strict_eq_str (parsed_eventType res) "INVOKE" then PollInvoke
        else PollOther
      else PollFails
  end.

Definition is_invoke (reply : HostReply) : bool :=
  match poll_kind reply with
  | PollInvoke => true
  | _ => false
  end.

Definition is_shutdown (reply : HostReply) : bool :=
  match poll_kind reply with
  | PollShutdown => true
  | _ => false
  end.

(** An instance that uses the client of the library. *)
Definition uses_library_client (self : LambdaHooks.Instance)
    (options : ExtensionClient.Options) : Prop :=
  LambdaHooks.i_extensionClient self = ExtensionClient.createExtensionClient options.

(** The events [start] subscribes to. *)
Definition subscription (self : LambdaHooks.Instance) : list string :=
  if strict_eq_str (LambdaHooks.i_extensionType self) "internal"
  then ["INVOKE"] else ["INVOKE"; "SHUTDOWN"].

Definition registration_failed (cause : JsError) : JsError :=
  LambdaHookError "EXTENSION_REGISTRATION_FAILED"
    "Failed to register extension with Lambda" (CausedBy cause) false.

Definition signal_listeners : list Listener :=
  [ {| l_signal := "SIGINT"; l_this := None |};
    {| l_signal := "SIGTERM"; l_this := None |} ].

(** Sample data: a process in which the error class happens to be a global. *)
Definition globals_with_class : gmap string JsVal :=
  <["LambdaHookError" := JLambdaHookErrorClass]> ∅.

Definition handler_failing_late : Handler :=
  {| h_name := "failing late"; h_call := rejects_at 5 (Thrown "late" false) |}.

Definition library_options : ExtensionClient.Options :=
  {| ExtensionClient.extensionName := JStr "my-extension";
     ExtensionClient.includeAccountId := JBool false |}.


(** The [catch] block of [start] with the client of the library: the report
    is attempted, its own failure is logged, the wrapped error is thrown. *)
Definition report_and_rethrow (error : JsError) (st : State) : Completion unit * State :=
  match ExtensionClient.reportInitError (registration_failed error) st with
  | (Normal _, st') => (Throw (registration_failed error), st')
  | (Throw reportError, st') =>
      (Throw (registration_failed error),
       add_effects [ConsoleError "Failed to report initialization error:" reportError] st')
  | (Halted s, st') => (Halted s, st')
  end.


(** The response inside [reply]. *)
Definition response (status : Z) (identifier eventType : JsVal) : HttpResponse :=
  {| statusCode := status;
     identifierHeader := identifier;
     rawBody := "";
     parsed_eventType := eventType;
     parsed_deadlineMs := JNum 1596036475071;
     parsed_requestId := JUndefined;
     parsed_invokedFunctionArn := JUndefined;
     parsed_tracing := JUndefined;
     parsed_shutdownReason := JUndefined;
     parsed_functionName := JStr "my-function";
     parsed_functionVersion := JStr "$LATEST";
     parsed_handler := JStr "index.handler";
     parsed_accountId := JUndefined |}.

(** [st'] is [st] after one operation of the client: nothing moved but the
    trace and the host conversation, and either nothing was sent and no
    reply used, or one request was sent and one reply used. *)
Definition one_exchange_at_most (st st' : State) : Prop :=
  ∃ es replies,
    st' = after_io es replies st
    ∧ ((es = [] ∧ replies = host st)
       ∨ (length (requests es) = 1%nat ∧ replies = tail (host st))).

(** * Properties *)

(** ** [Array_sort] *)

Section ArraySort.

Context {A : Type} (comparefn : A → A → Z).

Lemma sort_insert_perm (x : A) (l : list A) :
  sort_insert comparefn x l ≡ₚ x :: l.
Proof.
  induction l as [|y l IH]; simpl; [done|].
  destruct (0 <? comparefn x y); [|done].
  rewrite IH. apply Permutation_swap.
Qed.

Lemma Array_sort_perm (l : list A) : Array_sort comparefn l ≡ₚ l.
Proof.
  induction l as [|x l IH]; simpl; [done|].
  by rewrite sort_insert_perm, IH.
Qed.

Lemma Array_sort_length (l : list A) :
  length (Array_sort comparefn l) = length l.
Proof. by rewrite Array_sort_perm. Qed.

End ArraySort.

(** Sorting by an integer key, larger keys first, as [by_priority] does. *)
Section SortByKey.

Context {A : Type} (key : A → Z).

Lemma sort_insert_HdRel (a x : A) (l : list A) :
  (not_before key) a x → HdRel (not_before key) a l →
  HdRel (not_before key) a (sort_insert (descending key) x l).
Proof.
  intros Hax Hal. destruct l as [|y l]; simpl; [by constructor|].
  destruct (0 <? descending key x y); constructor; [|done].
  by inversion Hal.
Qed.

Lemma sort_insert_sorted (x : A) (l : list A) :
  Sorted (not_before key) l → Sorted (not_before key) (sort_insert (descending key) x l).
Proof.
  induction 1 as [|y l Hl IH Hy]; simpl; [by repeat constructor|].
  destruct (0 <? descending key x y) eqn:Hc.
  - constructor; [done|]. apply sort_insert_HdRel; [|done].
    apply Z.ltb_lt in Hc. unfold descending in Hc. unfold not_before. lia.
  - constructor; [by constructor|]. constructor.
    apply Z.ltb_ge in Hc. unfold descending in Hc. unfold not_before. lia.
Qed.

Lemma Array_sort_sorted (l : list A) :
  Sorted (not_before key) (Array_sort (descending key) l).
Proof.
  induction l as [|x l IH]; simpl; [constructor|].
  by apply sort_insert_sorted.
Qed.

(** Stability: the elements of one key keep their relative order. *)
Lemma sort_insert_stable (k : Z) (x : A) (l : list A) :
  filter (λ a, key a = k) (sort_insert (descending key) x l)
  = filter (λ a, key a = k) (x :: l).
Proof.
  induction l as [|y l IH]; simpl; [done|].
  destruct (0 <? descending key x y) eqn:Hc; [|done].
  apply Z.ltb_lt in Hc. unfold descending in Hc.
  rewrite (filter_cons _ y), IH, !filter_cons.
  repeat case_decide; try done; lia.
Qed.

Lemma Array_sort_stable (k : Z) (l : list A) :
  filter (λ a, key a = k) (Array_sort (descending key) l)
  = filter (λ a, key a = k) l.
Proof.
  induction l as [|x l IH]; simpl; [done|].
  by rewrite sort_insert_stable, !filter_cons, IH.
Qed.

(** A list already in order is left as it is. *)
Lemma Array_sort_sorted_id (l : list A) :
  Sorted (not_before key) l → Array_sort (descending key) l = l.
Proof.
  induction 1 as [|x l Hl IH Hx]; simpl; [done|].
  rewrite IH. destruct Hx as [|y l' Hxy]; simpl; [done|].
  unfold not_before in Hxy. unfold descending.
  destruct (0 <? key y - key x) eqn:Hc; [|done].
  apply Z.ltb_lt in Hc. lia.
Qed.

End SortByKey.

(** ** State bookkeeping *)

Lemma set_hooks_id (st : State) : set_hooks (hooks st) st = st.
Proof. by destruct st. Qed.

Lemma set_hooks_twice (h1 h2 : gmap string (list HookEntry)) (st : State) :
  set_hooks h2 (set_hooks h1 st) = set_hooks h2 st.
Proof. done. Qed.

Lemma add_effects_nil (st : State) : add_effects [] st = st.
Proof. destruct st. unfold add_effects. simpl. by rewrite app_nil_r. Qed.

Lemma add_effects_twice (es1 es2 : list Effect) (st : State) :
  add_effects es2 (add_effects es1 st) = add_effects (es1 ++ es2) st.
Proof. unfold add_effects. simpl. by rewrite app_assoc. Qed.

Lemma launched_app (phase : string) (es1 es2 : list Effect) :
  launched phase (es1 ++ es2) = launched phase es1 ++ launched phase es2.
Proof. apply flat_map_app. Qed.

Lemma settled_app (es1 es2 : list Effect) :
  settled (es1 ++ es2) = settled es1 ++ settled es2.
Proof. apply flat_map_app. Qed.

(** ** The registry: [register] *)

(** The registry module declares no [LambdaHookError]. *)
Lemma LambdaHookError_not_declared :
  "LambdaHookError" ∉ HookRegistry.declared_in_registry.
Proof. apply (bool_decide_unpack _). by vm_compute. Qed.

Lemma throw_new_eq {A} (code message : string) (cause : Cause) (st : State) :
  HookRegistry.throw_new (A := A) code message cause st
  = (Throw (thrown_by_new (globalThis st) code message cause), st).
Proof.
  unfold HookRegistry.throw_new, HookRegistry.new_LambdaHookError, bind,
    global_reference, thrown_by_new.
  destruct (globalThis st !! "LambdaHookError") as [[]|]; done.
Qed.

Lemma property_own (h : gmap string (list HookEntry)) (key : string)
    (entries : list HookEntry) :
  h !! key = Some entries → HookRegistry.property h key = HookRegistry.OwnArray entries.
Proof. intros H. unfold HookRegistry.property. by rewrite H. Qed.

Lemma push_own (phase : string) (entry : HookEntry) (st : State)
    (entries : list HookEntry) :
  hooks st !! phase = Some entries →
  HookRegistry.push phase entry st
  = (Normal tt, set_hooks (<[phase := entries ++ [entry]]> (hooks st)) st).
Proof.
  intros H. unfold HookRegistry.push, bind, get, modify.
  by rewrite (property_own _ _ _ H).
Qed.

Lemma register_item_own (phase : string) (options : HookRegistry.Options)
    (message : string) (item : HookRegistry.Item) (st : State)
    (entries : list HookEntry) :
  hooks st !! phase = Some entries →
  HookRegistry.register_item phase options message item st
  = match entry_of options item with
    | Some e => (Normal tt, set_hooks (<[phase := entries ++ [e]]> (hooks st)) st)
    | None =>
        (Throw (thrown_by_new (globalThis st) "INVALID_HANDLER" message NoCause), st)
    end.
Proof.
  intros H. destruct item as [f|[f|] p|v]; simpl;
    first [by apply push_own | apply throw_new_eq].
Qed.

(** The array loop: the accepted prefix is appended, whether or not a later
    item is refused. *)
Lemma forEach_register_item (phase : string) (options : HookRegistry.Options)
    (message : string) (items : list HookRegistry.Item) :
  ∀ (st : State) (entries : list HookEntry),
    hooks st !! phase = Some entries →
    forEach (HookRegistry.register_item phase options message) items st
    = (if forallb (λ item, bool_decide (is_Some (entry_of options item))) items
       then Normal tt
       else Throw (thrown_by_new (globalThis st) "INVALID_HANDLER" message NoCause),
       set_hooks (<[phase := entries ++ accepted_prefix options items]> (hooks st)) st).
Proof.
  induction items as [|item items IH]; intros st entries H; simpl.
  - rewrite app_nil_r, (insert_id _ _ _ H), set_hooks_id. done.
  - unfold bind at 1. rewrite (register_item_own _ _ _ _ _ _ H).
    destruct (entry_of options item) as [e|] eqn:He; simpl.
    + rewrite (IH _ (entries ++ [e])) by (simpl; apply lookup_insert_eq).
      simpl. rewrite set_hooks_twice, insert_insert_eq, <- app_assoc. done.
    + rewrite app_nil_r, (insert_id _ _ _ H), set_hooks_id. done.
Qed.

(** [register] on a phase the registry owns. *)
Lemma register_own (phase : string) (handler : HookRegistry.HandlerArg)
    (options : HookRegistry.Options) (st : State) (entries : list HookEntry) :
  hooks st !! phase = Some entries →
  ∃ message,
    HookRegistry.register phase handler options st
    = if all_accepted options handler then
        (Normal tt,
         set_hooks
           (<[phase := Array_sort HookRegistry.by_priority
                         (entries ++ accepted_prefix options (items_of handler))]>
              (hooks st)) st)
      else
        (Throw (thrown_by_new (globalThis st) "INVALID_HANDLER" message NoCause),
         set_hooks
           (<[phase := entries ++ accepted_prefix options (items_of handler)]>
              (hooks st)) st).
Proof.
  intros H.
  assert (Hsort : ∀ st' l, hooks st' !! phase = Some l →
            HookRegistry.sort_hooks phase st'
            = (Normal tt,
               set_hooks (<[phase := Array_sort HookRegistry.by_priority l]> (hooks st')) st')).
  { intros st' l Hl. unfold HookRegistry.sort_hooks, bind, get, modify.
    by rewrite (property_own _ _ _ Hl). }
  unfold HookRegistry.register, bind at 1, get.
  rewrite (property_own _ _ _ H). unfold all_accepted.
  destruct handler as [items|item]; simpl items_of; eexists; unfold bind.
  - rewrite (forEach_register_item _ _ _ _ _ _ H).
    destruct (forallb _ items); [|done].
    rewrite (Hsort _ (entries ++ accepted_prefix options items))
      by (simpl; apply lookup_insert_eq).
    simpl. by rewrite set_hooks_twice, insert_insert_eq.
  - rewrite (register_item_own _ _ _ _ _ _ H). simpl.
    destruct (entry_of options item) as [e|] eqn:He; simpl.
    + rewrite (Hsort _ (entries ++ [e])) by (simpl; apply lookup_insert_eq).
      simpl. by rewrite set_hooks_twice, insert_insert_eq.
    + by rewrite app_nil_r, (insert_id _ _ _ H), set_hooks_id.
Qed.

(** [register] on a phase that is no property of [hooks] at all: nothing is
    touched. *)
Lemma register_unknown (phase : string) (handler : HookRegistry.HandlerArg)
    (options : HookRegistry.Options) (st : State) :
  HookRegistry.property (hooks st) phase = HookRegistry.Undefined →
  HookRegistry.register phase handler options st
  = (Throw (thrown_by_new (globalThis st) "INVALID_EVENT_TYPE"
              ("Invalid event type: " +:+ phase) NoCause), st).
Proof.
  intros H. unfold HookRegistry.register, bind, get. rewrite H.
  apply throw_new_eq.
Qed.

(** ** The registry: [executeHooks] *)

Lemma hook_promise_eq (phase : string) (run : HookEntry * Settlement) (st : State) :
  HookRegistry.hook_promise phase run st
  = (Normal (rejection_of (globalThis st) phase run),
     add_effects (settlement_effects phase run) st).
Proof.
  unfold HookRegistry.hook_promise, rejection_of, settlement_effects, bind, emit,
    modify, console_error, try_catch.
  destruct (outcome (snd run)) as [|error|]; simpl;
    [done| |by rewrite add_effects_nil].
  rewrite throw_new_eq. simpl. by rewrite add_effects_twice.
Qed.

Lemma existsb_perm {A} (P : A → bool) (l1 l2 : list A) :
  l1 ≡ₚ l2 → existsb P l1 = existsb P l2.
Proof.
  intros Hp. apply eq_true_iff_eq. rewrite !existsb_exists.
  split; intros (x & Hin & Hx); exists x; (split; [|done]).
  - by apply (Permutation_in _ Hp).
  - by apply (Permutation_in _ (Permutation_sym Hp)).
Qed.

Lemma existsb_fmap {A B} (f : A → B) (P : B → bool) (l : list A) :
  existsb P (map f l) = existsb (λ x, P (f x)) l.
Proof. induction l as [|x l IH]; simpl; [done|]. by rewrite IH. Qed.

Lemma settle_eq (phase : string) (runs : list (HookEntry * Settlement)) :
  ∀ st : State,
    HookRegistry.settle phase runs st
    = (Normal (head (omap (rejection_of (globalThis st) phase) runs),
               existsb (λ run, HookRegistry.never_settles (outcome (snd run))) runs),
       add_effects (flat_map (settlement_effects phase) runs) st).
Proof.
  induction runs as [|run runs IH]; intros st; simpl.
  - by rewrite add_effects_nil.
  - unfold bind. rewrite hook_promise_eq, IH. simpl.
    rewrite add_effects_twice.
    destruct (rejection_of (globalThis st) phase run); done.
Qed.

(** A dispatch on a phase of the registry changes the trace only. *)
Lemma executeHooks_own (phase : string) (event : Event) (st : State)
    (entries : list HookEntry) :
  hooks st !! phase = Some entries →
  HookRegistry.executeHooks phase event st
  = (dispatch_result (globalThis st) phase event entries,
     add_effects (dispatch_effects phase event entries) st).
Proof.
  intros H. unfold HookRegistry.executeHooks, bind at 1, get.
  rewrite (property_own _ _ _ H).
  destruct entries as [|e entries].
  - unfold dispatch_result, dispatch_effects. simpl. by rewrite add_effects_nil.
  - unfold bind, emit, modify. rewrite settle_eq. simpl globalThis.
    unfold dispatch_result, dispatch_effects, run_of. rewrite add_effects_twice.
    rewrite (existsb_perm _ _ _ (Array_sort_perm _ _)), existsb_fmap.
    destruct (head _); [done|]. by destruct (existsb _ _).
Qed.

Lemma launched_launches (phase : string) (event : Event) (entries : list HookEntry) :
  launched phase (map (λ e, HandlerLaunched phase (handler e) event) entries)
  = map handler entries.
Proof.
  induction entries as [|e entries IH]; simpl; [done|].
  rewrite String.eqb_refl. simpl. by f_equal.
Qed.

Lemma launched_settlements (phase : string) (runs : list (HookEntry * Settlement)) :
  ∀ phase', launched phase' (flat_map (settlement_effects phase) runs) = [].
Proof.
  intros phase'. induction runs as [|run runs IH]; simpl; [done|].
  rewrite launched_app, IH. unfold settlement_effects.
  destruct (outcome (snd run)); done.
Qed.

(** Launch order is list order. *)
Lemma launched_dispatch (phase : string) (event : Event) (entries : list HookEntry) :
  launched phase (dispatch_effects phase event entries) = map handler entries.
Proof.
  unfold dispatch_effects.
  by rewrite launched_app, launched_launches, launched_settlements, app_nil_r.
Qed.

Lemma settled_settlements (phase : string) (runs : list (HookEntry * Settlement)) :
  settled (flat_map (settlement_effects phase) runs)
  = map (λ run, (handler (fst run), outcome (snd run)))
      (filter (λ run, HookRegistry.never_settles (outcome (snd run)) = false) runs).
Proof.
  induction runs as [|run runs IH]; simpl; [done|].
  rewrite settled_app, IH. unfold settlement_effects.
  destruct (outcome (snd run)) eqn:Ho.
  - rewrite filter_cons_True by (by rewrite Ho). simpl. by rewrite Ho.
  - rewrite filter_cons_True by (by rewrite Ho). simpl. by rewrite Ho.
  - rewrite filter_cons_False by (by rewrite Ho). done.
Qed.

(** Every launched handler whose promise settles is seen to settle, exactly
    once: none is cancelled. *)
Lemma settled_dispatch (phase : string) (event : Event) (entries : list HookEntry) :
  settled (dispatch_effects phase event entries)
  ≡ₚ map (λ e, (handler e, outcome (h_call (handler e) event)))
       (filter (λ e, HookRegistry.never_settles (outcome (h_call (handler e) event))
                     = false) entries).
Proof.
  unfold dispatch_effects. rewrite settled_app.
  replace (settled (map _ entries)) with (@nil (Handler * Outcome))
    by (induction entries; simpl; done).
  simpl. rewrite settled_settlements, Array_sort_perm.
  induction entries as [|e entries IH]; simpl; [done|].
  unfold run_of at 1.
  destruct (HookRegistry.never_settles (outcome (h_call (handler e) event))) eqn:Hn.
  - rewrite !filter_cons_False by (simpl; by rewrite Hn). exact IH.
  - rewrite !filter_cons_True by (simpl; by rewrite Hn). simpl. by rewrite IH.
Qed.

(** The dispatch throws exactly when some handler rejects. *)
Lemma dispatch_result_throws (g : gmap string JsVal) (phase : string)
    (event : Event) (entries : list HookEntry) :
  (∃ e, dispatch_result g phase event entries = Throw e)
  ↔ ∃ entry, entry ∈ entries
      ∧ rejects (outcome (h_call (handler entry) event)) = true.
Proof.
  unfold dispatch_result.
  set (runs := Array_sort HookRegistry.by_tick (map (run_of event) entries)).
  assert (Hruns : ∀ run, run ∈ runs ↔ ∃ entry, entry ∈ entries ∧ run = run_of event entry).
  { intros run. unfold runs. rewrite Array_sort_perm, list_elem_of_fmap.
    split; intros (entry & ? & ?); eauto. }
  split.
  - intros [e He]. destruct (head _) as [e'|] eqn:Hhd;
      [|by destruct (existsb _ _)].
    apply head_Some_elem_of, list_elem_of_omap in Hhd as (run & Hin & Hrej).
    apply Hruns in Hin as (entry & Hent & ->). exists entry. split; [done|].
    unfold rejection_of, run_of in Hrej. simpl in Hrej.
    destruct (outcome _); done.
  - intros (entry & Hent & Hrej).
    destruct (head _) as [e'|] eqn:Hhd; [by eexists|].
    apply head_None in Hhd. exfalso.
    assert (Hin : run_of event entry ∈ runs) by (apply Hruns; eauto).
    destruct (outcome (h_call (handler entry) event)) as [|error|] eqn:Ho;
      [done| |done].
    assert (Hel : thrown_by_new g "HOOK_EXECUTION_ERROR"
                    ("Error executing " +:+ phase +:+ " hook") (CausedBy error)
                  ∈ omap (rejection_of g phase) runs).
    { apply list_elem_of_omap. exists (run_of event entry). split; [done|].
      unfold rejection_of, run_of. simpl. by rewrite Ho. }
    rewrite Hhd in Hel. by apply not_elem_of_nil in Hel.
Qed.

(** Where the registry module can reach the error class, the error thrown
    is the wrapper the source spells out, around the error of a handler
    that rejected. *)
Lemma dispatch_result_wrapped (g : gmap string JsVal) (phase : string)
    (event : Event) (entries : list HookEntry) (e : JsError) :
  g !! "LambdaHookError" = Some JLambdaHookErrorClass →
  dispatch_result g phase event entries = Throw e →
  ∃ entry error, entry ∈ entries
    ∧ outcome (h_call (handler entry) event) = Rejects error
    ∧ e = LambdaHookError "HOOK_EXECUTION_ERROR"
            ("Error executing " +:+ phase +:+ " hook") (CausedBy error) false.
Proof.
  intros Hg. unfold dispatch_result.
  destruct (head _) as [e'|] eqn:Hhd; [|by destruct (existsb _ _)]. intros [= ->].
  apply head_Some_elem_of, list_elem_of_omap in Hhd as (run & Hin & Hrej).
  rewrite Array_sort_perm, list_elem_of_fmap in Hin. destruct Hin as (entry & -> & Hent).
  unfold rejection_of, run_of, thrown_by_new in Hrej. simpl in Hrej. rewrite Hg in Hrej.
  destruct (outcome (h_call (handler entry) event)) as [|error|] eqn:Ho;
    [done| |done].
  injection Hrej as <-. eauto.
Qed.

(** Where it cannot, as in a process whose global object has no such
    property, every failed dispatch ends in the same ReferenceError. *)
Lemma dispatch_result_unbound (g : gmap string JsVal) (phase : string)
    (event : Event) (entries : list HookEntry) (e : JsError) :
  g !! "LambdaHookError" = None →
  dispatch_result g phase event entries = Throw e →
  e = ReferenceError "LambdaHookError is not defined".
Proof.
  intros Hg. unfold dispatch_result.
  destruct (head _) as [e'|] eqn:Hhd; [|by destruct (existsb _ _)]. intros [= ->].
  apply head_Some_elem_of, list_elem_of_omap in Hhd as (run & _ & Hrej).
  unfold rejection_of, thrown_by_new in Hrej. rewrite Hg in Hrej.
  destruct (outcome (snd run)); congruence.
Qed.

(** Whatever [eventType] is, [executeHooks] returns, throws, or waits for
    ever on a handler that never settles, and what it adds to the trace
    launches the entries of that phase once each. *)
Lemma executeHooks_effects (phase : string) (event : Event) (st : State) :
  ∃ (r : Completion unit) (es : list Effect),
    HookRegistry.executeHooks phase event st = (r, add_effects es st)
    ∧ (r = Normal tt ∨ (∃ e, r = Throw e) ∨ r = Halted Blocked)
    ∧ launched phase es = map handler (default [] (hooks st !! phase)).
Proof.
  destruct (hooks st !! phase) as [entries|] eqn:H.
  - rewrite (executeHooks_own _ _ _ _ H). do 2 eexists. split; [done|]. split.
    + unfold dispatch_result. destruct (head _); [eauto|].
      destruct (existsb _ _); eauto.
    + apply launched_dispatch.
  - unfold HookRegistry.executeHooks, bind, get, HookRegistry.property. rewrite H.
    exists (fst (HookRegistry.executeHooks phase event st)), [].
    unfold HookRegistry.executeHooks, bind, get, HookRegistry.property. rewrite H.
    rewrite add_effects_nil.
    destruct (find _ _) as [[? [| | |[| |]| | |]]|]; simpl; eauto 10.
Qed.

(** ** Priorities and the forms of a registration *)

(** An own priority other than 0 wins over the default of the call. *)
Lemma own_priority_kept (p : Z) (q : option Z) :
  p ≠ 0 → HookRegistry.or_zero (HookRegistry.js_or (Some p) q) = p.
Proof.
  intros Hp. unfold HookRegistry.or_zero, HookRegistry.js_or. simpl.
  destruct (p =? 0) eqn:E; [apply Z.eqb_eq in E; done|]. simpl. by rewrite E.
Qed.

(** An own priority of 0 is falsy, so [||] moves on to the default. *)
Lemma zero_priority_falls_through (q : option Z) :
  HookRegistry.or_zero (HookRegistry.js_or (Some 0) q) = HookRegistry.or_zero q.
Proof. done. Qed.

Lemma or_zero_Some (p : Z) : HookRegistry.or_zero (Some p) = p.
Proof.
  unfold HookRegistry.or_zero, HookRegistry.js_or. simpl.
  destruct (p =? 0) eqn:E; simpl; [apply Z.eqb_eq in E|]; done.
Qed.

Lemma or_zero_own (p : Z) (q : option Z) :
  q = None ∨ q = Some p →
  HookRegistry.or_zero (HookRegistry.js_or (Some p) q) = p.
Proof.
  intros Hq. unfold HookRegistry.or_zero, HookRegistry.js_or. simpl.
  destruct (p =? 0) eqn:E; simpl; [|by rewrite E].
  apply Z.eqb_eq in E. subst p. by destruct Hq as [-> | ->].
Qed.

(** The four forms of one handler with one priority store the same entry. *)
Lemma forms_equivalent (phase : string) (f : Handler) (p : Z) (st : State)
    (entries : list HookEntry) :
  hooks st !! phase = Some entries →
  let stored :=
    (Normal tt,
     set_hooks (<[phase := Array_sort HookRegistry.by_priority
                             (entries ++ [{| handler := f; priority := p |}])]>
                  (hooks st)) st) in
  HookRegistry.register phase (HookRegistry.Single (HookRegistry.Function f))
    (default_priority p) st = stored
  ∧ HookRegistry.register phase (HookRegistry.Single (with_priority f p))
      no_options st = stored
  ∧ HookRegistry.register phase (HookRegistry.ArrayOf [HookRegistry.Function f])
      (default_priority p) st = stored
  ∧ HookRegistry.register phase
      (HookRegistry.ArrayOf [HookRegistry.Function f; with_priority f p])
      (default_priority p) st
    = HookRegistry.register phase
        (HookRegistry.ArrayOf [with_priority f p; with_priority f p]) no_options st.
Proof.
  intros H stored. unfold stored.
  repeat split;
    repeat match goal with
    | |- context [HookRegistry.register phase ?h ?o st] =>
        let m := fresh "m" in let E := fresh "E" in
        destruct (register_own phase h o st entries H) as [m E]; rewrite E; clear E
    end; simpl; rewrite ?or_zero_Some, ?or_zero_own by auto; done.
Qed.

(** ** Sequences of registrations *)

Lemma by_priority_descending :
  HookRegistry.by_priority = descending priority.
Proof. done. Qed.

(** After any calls, failed ones included, the entries of each priority are
    in the list in the order in which they were registered. *)
Lemma register_all_own (phase : string) (calls : list Call) :
  ∀ (st : State) (entries : list HookEntry),
    hooks st !! phase = Some entries →
    ∃ entries',
      register_all phase calls st = set_hooks (<[phase := entries']> (hooks st)) st
      ∧ ∀ p, filter (λ e, priority e = p) entries'
             = filter (λ e, priority e = p) (entries ++ registration_log calls).
Proof.
  induction calls as [|c calls IH]; intros st entries H; simpl.
  - exists entries. rewrite (insert_id _ _ _ H), set_hooks_id, app_nil_r. done.
  - destruct (register_own phase (c_handler c) (c_options c) st entries H) as [m E].
    rewrite E. clear E.
    set (acc := accepted_prefix (c_options c) (items_of (c_handler c))).
    destruct (all_accepted (c_options c) (c_handler c)); simpl.
    + edestruct (IH (set_hooks (<[phase := Array_sort HookRegistry.by_priority (entries ++ acc)]> (hooks st)) st))
        as (entries' & -> & Hf); [simpl; apply lookup_insert_eq|].
      exists entries'. simpl. rewrite set_hooks_twice, insert_insert_eq.
      split; [done|]. intros p. rewrite Hf, !filter_app.
      rewrite by_priority_descending, Array_sort_stable, filter_app.
      by rewrite <- app_assoc.
    + edestruct (IH (set_hooks (<[phase := entries ++ acc]> (hooks st)) st))
        as (entries' & -> & Hf); [simpl; apply lookup_insert_eq|].
      exists entries'. simpl. rewrite set_hooks_twice, insert_insert_eq.
      split; [done|]. intros p. rewrite Hf, !filter_app.
      by rewrite <- app_assoc.
Qed.

(** ** The protocol client *)

(** No scope around the two reports declares [extensionId]. *)
Lemma extensionId_not_declared :
  "extensionId" ∉ ExtensionClient.declared_around_report.
Proof. apply (bool_decide_unpack _). by vm_compute. Qed.

(** Without a global of that name the reports throw before anything else
    happens, whatever the controller knows. *)
Lemma report_unbound (path not_registered : string) (error : JsError) (st : State) :
  globalThis st !! "extensionId" = None →
  ExtensionClient.report path not_registered error st
  = (Throw (ReferenceError "extensionId is not defined"), st).
Proof.
  intros H. unfold ExtensionClient.report, bind, global_reference. by rewrite H.
Qed.

Lemma makeRequest_errors_not_fatal (method path : string)
    (headers : list (string * JsVal)) (body : RequestBody) (st st' : State)
    (e : JsError) :
  ExtensionClient.makeRequest method path headers body st = (Throw e, st') →
  isFatal e = false.
Proof.
  unfold ExtensionClient.makeRequest, bind, emit, modify, get. simpl.
  destruct (host st) as [|[res|err] rest]; simpl; [done| |].
  - destruct (ExtensionClient.is_2xx (statusCode res)); simpl; [done|].
    by intros [= <- _].
  - by intros [= <- _].
Qed.

(** The client of the library never raises an error marked fatal from a
    poll. *)
Lemma nextEvent_errors_not_fatal (extensionId : JsVal) (st st' : State) (e : JsError) :
  ExtensionClient.nextEvent extensionId st = (Throw e, st') → isFatal e = false.
Proof.
  unfold ExtensionClient.nextEvent.
  destruct (truthy extensionId); simpl; [|by intros [= <- _]].
  unfold bind at 1.
  destruct (ExtensionClient.makeRequest _ _ _ _ st) as [[res|e'|s] st1] eqn:E;
    simpl; [done| |done].
  intros [= <- _]. eapply makeRequest_errors_not_fatal, E.
Qed.

(** A poll the host answers with a 2xx response: one request is sent, one
    reply is consumed, and the event is read off the body. *)
Lemma nextEvent_answered (extensionId : JsVal) (st : State) (res : HttpResponse)
    (rest : list HostReply) :
  truthy extensionId = true →
  host st = Responds res :: rest →
  ExtensionClient.is_2xx (statusCode res) = true →
  ExtensionClient.nextEvent extensionId st
  = (Normal {| eventType := parsed_eventType res;
               deadlineMs := parsed_deadlineMs res;
               requestId := parsed_requestId res;
               invokedFunctionArn := parsed_invokedFunctionArn res;
               tracing := parsed_tracing res;
               shutdownReason := parsed_shutdownReason res |},
     set_host rest
       (add_effects
          [HttpRequest "GET" "event/next"
             [("Lambda-Extension-Identifier", extensionId)] NoBody] st)).
Proof.
  intros Hid Hhost Hok. unfold ExtensionClient.nextEvent. rewrite Hid. simpl.
  unfold bind at 1, ExtensionClient.makeRequest, bind, emit, modify, get. simpl.
  rewrite Hhost, Hok. done.
Qed.

(** ** The controller *)

Lemma requests_app (es1 es2 : list Effect) :
  requests (es1 ++ es2) = requests es1 ++ requests es2.
Proof. apply flat_map_app. Qed.

Lemma requests_dispatch (phase : string) (event : Event) (entries : list HookEntry) :
  requests (dispatch_effects phase event entries) = [].
Proof.
  unfold dispatch_effects. rewrite requests_app.
  replace (requests (map _ entries)) with (@nil (string * string))
    by (induction entries; simpl; done).
  simpl. generalize (Array_sort HookRegistry.by_tick (map (run_of event) entries)).
  intros runs. induction runs as [|run runs IH]; simpl; [done|].
  rewrite requests_app, IH. unfold settlement_effects.
  destruct (outcome (snd run)); done.
Qed.

Lemma logged_app (label : string) (es1 es2 : list Effect) :
  logged label (es1 ++ es2) = logged label es1 ++ logged label es2.
Proof. unfold logged. by rewrite flat_map_app. Qed.

(** The label of a hook's own log line is never the label of the
    controller's log line. *)
Lemma hook_label_differs (phase : string) :
  String.eqb ("Error executing " +:+ phase +:+ " hook:")
    "Error executing shutdown hooks:" = false.
Proof.
  destruct (String.eqb _ _) eqn:E; [|done]. exfalso.
  apply String.eqb_eq in E. simpl in E. injection E as E. simpl in E.
  do 15 (destruct phase as [|? phase]; simpl in E; [discriminate|injection E as _ E]).
  destruct phase; discriminate.
Qed.

Lemma logged_dispatch (phase : string) (event : Event) (entries : list HookEntry) :
  logged "Error executing shutdown hooks:" (dispatch_effects phase event entries) = [].
Proof.
  unfold dispatch_effects. rewrite logged_app.
  replace (logged _ (map _ entries)) with (@nil JsError)
    by (induction entries; simpl; done).
  simpl. generalize (Array_sort HookRegistry.by_tick (map (run_of event) entries)).
  intros runs. induction runs as [|run runs IH]; simpl; [done|].
  rewrite logged_app, IH. unfold settlement_effects.
  destruct (outcome (snd run)); [done| |done].
  unfold logged. cbn [flat_map]. by rewrite hook_label_differs.
Qed.

(** The dispatch waits for ever exactly when no handler rejects and some
    handler never settles. *)
Lemma dispatch_result_settles (phase : string) (event : Event) (st : State) :
  dispatch_settles phase event st = true →
  ∀ h, dispatch_result (globalThis st) phase event (default [] (hooks st !! phase))
       ≠ Halted h.
Proof.
  unfold dispatch_settles, some_rejects, some_pending. intros Hs h Hr.
  destruct (existsb (λ e, rejects _) _) eqn:Hrej.
  - apply existsb_exists in Hrej as (entry & Hin & Hrej).
    destruct (proj2 (dispatch_result_throws (globalThis st) phase event
                       (default [] (hooks st !! phase)))) as [e He].
    { exists entry. split; [by apply list_elem_of_In|done]. }
    congruence.
  - simpl in Hs. apply negb_true_iff in Hs.
    unfold dispatch_result in Hr. rewrite Hs in Hr. by destruct (head _).
Qed.

(** Where the SHUTDOWN dispatch settles, [handleShutdown] never throws: it
    runs the SHUTDOWN hooks once, logs the failure of the dispatch if there
    is one, and clears [#isRunning]. *)
Lemma handleShutdown_eq (event : Event) (st : State) :
  dispatch_settles "SHUTDOWN" event st = true →
  ∃ es,
    LambdaHooks.handleShutdown event st
    = (Normal tt, set_isRunning false (add_effects es st))
    ∧ launched "SHUTDOWN" es = map handler (default [] (hooks st !! "SHUTDOWN"))
    ∧ requests es = []
    ∧ logged "Error executing shutdown hooks:" es
      = match dispatch_result (globalThis st) "SHUTDOWN" event
                (default [] (hooks st !! "SHUTDOWN")) with
        | Throw e => [e]
        | _ => []
        end.
Proof.
  intros Hs. pose proof (dispatch_result_settles _ _ _ Hs) as Hne.
  unfold LambdaHooks.handleShutdown, try_finally, try_catch, modify.
  destruct (hooks st !! "SHUTDOWN") as [entries|] eqn:H.
  - rewrite (executeHooks_own _ _ _ _ H). simpl. simpl in Hne.
    destruct (dispatch_result _ _ _ _) as [[]|e|s] eqn:Hr.
    + exists (dispatch_effects "SHUTDOWN" event entries).
      by rewrite launched_dispatch, requests_dispatch, logged_dispatch.
    + exists (dispatch_effects "SHUTDOWN" event entries
              ++ [ConsoleError "Error executing shutdown hooks:" e]).
      unfold console_error, emit, modify. rewrite add_effects_twice.
      rewrite launched_app, requests_app, logged_app, launched_dispatch,
        requests_dispatch, logged_dispatch.
      simpl. by rewrite app_nil_r.
    + by destruct (Hne s).
  - unfold HookRegistry.executeHooks, bind, get, HookRegistry.property.
    rewrite H. simpl. exists []. by rewrite add_effects_nil.
Qed.

(** A [start()] on a controller that is not running is never rejected as
    ALREADY_RUNNING: it registers (again), or fails as a failed
    registration. *)
Lemma start_when_not_running (self : LambdaHooks.Instance) (st : State) :
  isRunning st = false →
  fails_with "ALREADY_RUNNING" (fst (LambdaHooks.start self st)) = false.
Proof.
  intros H. unfold LambdaHooks.start, bind at 1, get. rewrite H.
  unfold try_catch at 1.
  match goal with |- context [match ?m st with _ => _ end] => destruct (m st) as [[[]|e|s] st1] end;
    simpl; [done| |done].
  unfold bind, try_catch, throw, console_error, emit, modify.
  destruct (client_reportInitError _ _ st1) as [[[]|e'|s] st2]; done.
Qed.

(** A listener that is a bare method reference is called with the process
    as [this]: the lookup of the private method throws, no hook is
    dispatched, and [finally] exits the process. *)
Lemma handleSignal_unbound (signal : string) (st : State) :
  LambdaHooks.handleSignal TheProcess signal st
  = (Halted (Exit 0),
     add_effects
       [ConsoleLog ("Received " +:+ signal +:+ ", Gracefully shutting down...");
        ProcessExit 0] st).
Proof.
  unfold LambdaHooks.handleSignal, bind, console_log, emit, modify, try_finally,
    process_exit, bind, emit, modify, halt.
  simpl. by rewrite add_effects_twice.
Qed.

(** Called on the controller itself, the same method dispatches the
    SHUTDOWN hooks once before it exits. *)
Lemma handleSignal_bound (signal : string) (st : State) :
  dispatch_settles "SHUTDOWN" (EvSignal signal) st = true →
  ∃ es,
    LambdaHooks.handleSignal TheController signal st
    = (Halted (Exit 0), set_isRunning false (add_effects es st))
    ∧ launched "SHUTDOWN" es = map handler (default [] (hooks st !! "SHUTDOWN")).
Proof.
  intros Hs.
  unfold LambdaHooks.handleSignal, bind, console_log, emit, modify, try_finally.
  simpl LambdaHooks.private_handleShutdown.
  destruct (handleShutdown_eq (EvSignal signal)
              (add_effects [ConsoleLog ("Received " +:+ signal +:+ ", Gracefully shutting down...")] st))
    as (es & -> & Hl & _); [exact Hs|].
  unfold process_exit, bind, emit, modify, halt. simpl.
  eexists (_ :: es ++ [ProcessExit 0]). split.
  - unfold add_effects, set_isRunning. simpl. by rewrite <- !app_assoc.
  - simpl. rewrite launched_app, Hl. simpl. by rewrite app_nil_r.
Qed.

(** ** Claims on the hook registry *)

(** C1 (the code departs from the claim).  The claim: an item registered as
    [{handler, priority: p}] is stored with priority [p] for every integer
    [p], 0 included, whatever [options.priority] is.  The code computes
    [item.priority || options.priority || 0]: registering
    [{handler: h, priority: 0}] with the options [{priority: 5}] stores the
    entry with priority 5, in a single-item call and in an array call alike
    (for [p] other than 0 the own priority is kept: [own_priority_kept], and
    the forms are interchangeable: [forms_equivalent]). *)
Theorem C1_explicit_zero_priority_is_replaced (h : Handler)
    (g : gmap string JsVal) (replies : list HostReply) :
  hooks (snd (HookRegistry.register "INVOKE"
                (HookRegistry.Single (with_priority h 0)) (default_priority 5)
                (LambdaHooks.fresh g replies))) !! "INVOKE"
  = Some [{| handler := h; priority := 5 |}]
  ∧ hooks (snd (HookRegistry.register "INVOKE"
                  (HookRegistry.ArrayOf [with_priority h 0]) (default_priority 5)
                  (LambdaHooks.fresh g replies))) !! "INVOKE"
    = Some [{| handler := h; priority := 5 |}].
Proof.
  assert (H : hooks (LambdaHooks.fresh g replies) !! "INVOKE" = Some []) by done.
  split.
  - destruct (register_own "INVOKE" (HookRegistry.Single (with_priority h 0))
                (default_priority 5) _ _ H) as [m ->].
    simpl. apply lookup_insert_eq.
  - destruct (register_own "INVOKE" (HookRegistry.ArrayOf [with_priority h 0])
                (default_priority 5) _ _ H) as [m ->].
    simpl. apply lookup_insert_eq.
Qed.

(** C5, as the specification has it, fails after a call that threw: with A
    (priority 0) registered, the call with the array [[B (priority 20), 42]]
    appends B, throws at 42 and never reaches the sort; a caller that catches
    the error and goes on sees A launched before B. *)
Lemma C5_order_broken_by_failed_call :
  let st :=
    register_all "INIT"
      [ {| c_handler := HookRegistry.Single (with_priority handler_A 0);
           c_options := no_options |};
        {| c_handler := HookRegistry.ArrayOf
                          [with_priority handler_B 20; HookRegistry.Primitive (JNum 42)];
           c_options := no_options |} ]
      (LambdaHooks.fresh node_globals []) in
  launched "INIT" (trace (snd (HookRegistry.executeHooks "INIT" sample_event st)))
  = [handler_A; handler_B]
  ∧ ¬ launch_order_by_priority "INIT" st.
Proof.
  split; [by vm_compute|].
  intros (entries & Hentries & Hsorted).
  vm_compute in Hentries. injection Hentries as <-.
  inversion Hsorted as [|? ? _ Hhd]; subst.
  inversion Hhd as [|? ? Hle]; subst.
  unfold not_before in Hle. simpl in Hle. lia.
Qed.

(** C5 (amended): for every sequence of registration calls into a phase of
    which the last one returned, the handlers are launched in the order of
    the phase's list, that list is non-increasing in priority, and the
    entries of any one priority are in it in registration order. *)
Theorem C5_launch_order (phase : string) (calls : list Call) (last : Call)
    (st0 : State) (event : Event) :
  hooks st0 !! phase = Some [] →
  fst (HookRegistry.register phase (c_handler last) (c_options last)
         (register_all phase calls st0)) = Normal tt →
  ∃ entries,
    hooks (register_all phase (calls ++ [last]) st0) !! phase = Some entries
    ∧ launched phase
        (trace (snd (HookRegistry.executeHooks phase event
                       (register_all phase (calls ++ [last]) st0))))
      = launched phase (trace st0) ++ map handler entries
    ∧ Sorted (not_before priority) entries
    ∧ ∀ p, filter (λ e, priority e = p) entries
           = filter (λ e, priority e = p) (registration_log (calls ++ [last])).
Proof.
  intros H0 Hlast.
  destruct (register_all_own phase (calls ++ [last]) st0 [] H0) as (entries & Hst & Hstable).
  destruct (register_all_own phase calls st0 [] H0) as (before & Hbefore & _).
  assert (Hlook : hooks (register_all phase (calls ++ [last]) st0) !! phase = Some entries)
    by (rewrite Hst; simpl; apply lookup_insert_eq).
  exists entries. split; [done|]. split; [|split; [|done]].
  - rewrite (executeHooks_own _ _ _ _ Hlook). simpl.
    rewrite Hst at 1. simpl. by rewrite launched_app, launched_dispatch.
  - unfold register_all in Hlook. rewrite fold_left_app in Hlook. simpl in Hlook.
    fold (register_all phase calls st0) in Hlook.
    assert (Hb : hooks (register_all phase calls st0) !! phase = Some before)
      by (rewrite Hbefore; simpl; apply lookup_insert_eq).
    destruct (register_own phase (c_handler last) (c_options last) _ _ Hb) as [m E].
    rewrite E in Hlast, Hlook.
    destruct (all_accepted (c_options last) (c_handler last)); [|done].
    simpl in Hlook. rewrite lookup_insert_eq in Hlook. injection Hlook as <-.
    rewrite by_priority_descending. apply Array_sort_sorted.
Qed.

(** The example of the specification: [A (p=0), B (p=20), C (p=0)] in one
    call are launched B, A, C. *)
Lemma C5_launch_order_example :
  ∃ entries,
    hooks (register_all "INIT"
             ([] ++ [ {| c_handler := HookRegistry.ArrayOf
                                        [with_priority handler_A 0;
                                         with_priority handler_B 20;
                                         with_priority handler_C 0];
                         c_options := no_options |} ])
             (LambdaHooks.fresh node_globals [])) !! "INIT" = Some entries
    ∧ map handler entries = [handler_B; handler_A; handler_C].
Proof.
  destruct (C5_launch_order "INIT" []
              {| c_handler := HookRegistry.ArrayOf
                                [with_priority handler_A 0;
                                 with_priority handler_B 20;
                                 with_priority handler_C 0];
                 c_options := no_options |}
              (LambdaHooks.fresh node_globals []) sample_event)
    as (entries & Hentries & Hlaunched & _).
  - reflexivity.
  - vm_compute. reflexivity.
  - exists entries. split; [exact Hentries|].
    symmetry in Hlaunched. etransitivity; [exact Hlaunched|].
    vm_compute. reflexivity.
Defined.

(** C6 (the code departs from the claim).  The claim: a dispatch in which a
    handler fails ends in an error of kind HOOK_EXECUTION_ERROR whose cause
    is that handler's error.  [hook-registry.js] neither imports nor declares
    [LambdaHookError], so evaluating [new LambdaHookError(...)] in its
    [catch] block throws a ReferenceError, and that is what the dispatch
    ends in; the error of the handler is logged and lost.  The other handler
    still runs to its end. *)
Theorem C6_dispatch_ends_in_ReferenceError :
  let st :=
    register_all "INVOKE"
      [ {| c_handler := HookRegistry.ArrayOf
                          [HookRegistry.Function handler_failing;
                           HookRegistry.Function handler_A];
           c_options := no_options |} ]
      (LambdaHooks.fresh node_globals []) in
  let r := HookRegistry.executeHooks "INVOKE" sample_event st in
  fst r = Throw (ReferenceError "LambdaHookError is not defined")
  ∧ fails_with "HOOK_EXECUTION_ERROR" (fst r) = false
  ∧ settled (trace (snd r))
    = [(handler_failing, Rejects boom); (handler_A, Resolves)].
Proof. by vm_compute. Qed.

(** C10 (the code departs from the claim).  The claim names the errors
    INVALID_HANDLER and INVALID_EVENT_TYPE; both are thrown with
    [new LambdaHookError(...)], which [hook-registry.js] cannot evaluate (the
    defect of C6), so each call ends in a ReferenceError.  The rest is as
    claimed: with A registered, [[B (p=20), 42]] leaves B appended after A,
    unsorted, and a call for a phase that does not exist leaves the state as
    it was. *)
Theorem C10_failed_calls_end_in_ReferenceError :
  let st :=
    snd (HookRegistry.register "INVOKE" (HookRegistry.Single (with_priority handler_A 0))
           no_options (LambdaHooks.fresh node_globals [])) in
  let r :=
    HookRegistry.register "INVOKE"
      (HookRegistry.ArrayOf [with_priority handler_B 20; HookRegistry.Primitive (JNum 42)])
      no_options st in
  fst r = Throw (ReferenceError "LambdaHookError is not defined")
  ∧ fails_with "INVALID_HANDLER" (fst r) = false
  ∧ hooks (snd r) !! "INVOKE"
    = Some [ {| handler := handler_A; priority := 0 |};
             {| handler := handler_B; priority := 20 |} ]
  ∧ HookRegistry.register "DEPLOY" (HookRegistry.Single (HookRegistry.Function handler_A))
      no_options st
    = (Throw (ReferenceError "LambdaHookError is not defined"), st).
Proof. by vm_compute. Qed.

(** ** Claims on the protocol client and on the controller *)

(** C2 (the code departs from the claim).  The claim: before an identifier is
    known the two reports fail with INVALID_STATE and in no other way.  Both
    functions test a variable [extensionId] that no scope declares, so in a
    process without a global of that name they throw a ReferenceError before
    the test, for every error argument, before registration and equally
    after a [start()] that stored the identifier in the controller. *)
Theorem C2_reports_throw_ReferenceError (error : JsError) (polls : list HostReply) :
  let before := LambdaHooks.fresh node_globals (registered_reply :: polls) in
  let after := snd (LambdaHooks.start sample_instance before) in
  let undefined_variable := ReferenceError "extensionId is not defined" in
  ExtensionClient.reportInitError error before = (Throw undefined_variable, before)
  ∧ ExtensionClient.reportExitError error before = (Throw undefined_variable, before)
  ∧ fails_with "INVALID_STATE" (fst (ExtensionClient.reportInitError error before)) = false
  ∧ st_extensionId after = JStr "id-1"
  ∧ ExtensionClient.reportInitError error after = (Throw undefined_variable, after)
  ∧ ExtensionClient.reportExitError error after = (Throw undefined_variable, after).
Proof.
  intros before after undefined_variable.
  assert (Hb : globalThis before !! "extensionId" = None) by done.
  assert (Ha : globalThis after !! "extensionId" = None) by done.
  unfold ExtensionClient.reportInitError, ExtensionClient.reportExitError.
  rewrite !(report_unbound _ _ _ before Hb), !(report_unbound _ _ _ after Ha).
  done.
Qed.

(** C3 (the code departs from the claim).  The claim: a termination signal
    received while running makes the handler dispatch the SHUTDOWN hooks
    exactly once.  [start()] installs [this.#handleSignal] as it is, without
    its receiver, so the process calls it with itself as [this]; the access
    to [this.#handleShutdown] throws a TypeError, [executeHooks] is never
    called, and the [finally] block exits the process: the registered
    SHUTDOWN handler is not launched at all. *)
Theorem C3_signal_dispatches_nothing :
  let running := running_with handler_A [] in
  let polling := LambdaHooks.startEventLoop sample_instance 1 running in
  let r := LambdaHooks.deliver "SIGTERM" (snd polling) in
  fst polling = Halted Blocked
  ∧ isRunning (snd polling) = true
  ∧ hooks (snd polling) !! "SHUTDOWN" = Some [{| handler := handler_A; priority := 0 |}]
  ∧ listeners (snd polling)
    = [ {| l_signal := "SIGINT"; l_this := None |};
        {| l_signal := "SIGTERM"; l_this := None |} ]
  ∧ fst r = Halted (Exit 0)
  ∧ launched "SHUTDOWN" (trace (snd r)) = []
  ∧ trace (snd r)
    = trace (snd polling)
      ++ [ConsoleLog "Received SIGTERM, Gracefully shutting down..."; ProcessExit 0].
Proof. by vm_compute. Qed.

(** C4, as the specification has it, fails once the controller has
    terminated: after a SHUTDOWN event has ended the loop, [#isRunning] is
    false again and a further [start()] registers anew. *)
Lemma C4_start_after_termination_is_accepted :
  let terminated :=
    snd (LambdaHooks.startEventLoop sample_instance 3
           (running_with handler_A [shutdown_reply; registered_reply])) in
  isRunning terminated = false
  ∧ fst (LambdaHooks.start sample_instance terminated) = Normal tt
  ∧ fails_with "ALREADY_RUNNING" (fst (LambdaHooks.start sample_instance terminated))
    = false.
Proof. by vm_compute. Qed.

(** C4 (amended): a call of [start()] made while the controller is running,
    that is from the moment a first [start()] has set [#isRunning] until the
    loop ends, fails with ALREADY_RUNNING and leaves everything as it was:
    no request is sent, no field changes, the loop of the first call goes
    on from the same state. *)
Theorem C4_start_while_running (self : LambdaHooks.Instance) (st : State) :
  isRunning st = true →
  LambdaHooks.start self st = (Throw already_running, st).
Proof.
  intros H. unfold LambdaHooks.start, bind, get. by rewrite H.
Qed.

(** A first [start()] succeeds; a second one on the controller it left
    running is rejected and changes nothing. *)
Lemma C4_second_start_after_first :
  fst (LambdaHooks.start sample_instance
         (LambdaHooks.fresh node_globals [registered_reply])) = Normal tt
  ∧ LambdaHooks.start sample_instance (running_with handler_A [])
    = (Throw already_running, running_with handler_A []).
Proof.
  split.
  - vm_compute. reflexivity.
  - apply (C4_start_while_running sample_instance (running_with handler_A [])).
    vm_compute. reflexivity.
Defined.

(** C7 (the code departs from the claim).  The claim: whenever the loop
    receives a SHUTDOWN event, the SHUTDOWN hooks run once and afterwards
    the loop exits.  The code awaits [Promise.all] over the promises of the
    hooks with no timeout: with one SHUTDOWN handler whose promise never
    settles, the handler is launched, and the loop stays at that [await]
    for ever, [#isRunning] still set, however long it is run. *)
Lemma C7_hanging_shutdown_handler_blocks_loop :
  fst (LambdaHooks.startEventLoop sample_instance 5
         (running_with handler_hanging [shutdown_reply]))
  = Halted Blocked
  ∧ isRunning (snd (LambdaHooks.startEventLoop sample_instance 5
                      (running_with handler_hanging [shutdown_reply]))) = true
  ∧ launched "SHUTDOWN"
      (trace (snd (LambdaHooks.startEventLoop sample_instance 5
                     (running_with handler_hanging [shutdown_reply]))))
    = [handler_hanging]
  ∧ client_nextEvent (LambdaHooks.i_extensionClient sample_instance)
      (st_extensionId (running_with handler_hanging [shutdown_reply]))
      (running_with handler_hanging [shutdown_reply])
    = (Normal shutdown_event,
       snd (ExtensionClient.nextEvent (JStr "id-1")
              (running_with handler_hanging [shutdown_reply]))).
Proof. by vm_compute. Qed.

(** C7 (amended): when the poll of a running loop returns an event whose
    [eventType] is SHUTDOWN and the dispatch of the SHUTDOWN hooks settles
    (one of them rejects, or all of them resolve), the loop launches every
    SHUTDOWN hook once, in list order, sends no further request, clears
    [#isRunning] and ends; the failure of the dispatch, if a hook rejects,
    is logged once by the controller and not rethrown. *)
Theorem C7_shutdown_event_ends_loop (self : LambdaHooks.Instance) (fuel : nat)
    (st polled : State) (event : NextEvent) :
  isRunning st = true →
  client_nextEvent (LambdaHooks.i_extensionClient self) (st_extensionId st) st
  = (Normal event, polled) →
  eventType event = JStr "SHUTDOWN" →
  dispatch_settles "SHUTDOWN" (EvNext event) polled = true →
  ∃ es,
    LambdaHooks.startEventLoop self (S fuel) st
    = (Normal LambdaHooks.Finished, set_isRunning false (add_effects es polled))
    ∧ launched "SHUTDOWN" es = map handler (default [] (hooks polled !! "SHUTDOWN"))
    ∧ requests es = []
    ∧ length (logged "Error executing shutdown hooks:" es)
      = (if some_rejects "SHUTDOWN" (EvNext event) polled then 1 else 0)%nat
    ∧ ∀ e, dispatch_result (globalThis polled) "SHUTDOWN" (EvNext event)
             (default [] (hooks polled !! "SHUTDOWN")) = Throw e →
           logged "Error executing shutdown hooks:" es = [e].
Proof.
  intros Hrun Hpoll Htype Hsettles.
  destruct (handleShutdown_eq (EvNext event) polled Hsettles)
    as (es & Hshut & Hl & Hq & Hlog).
  exists es. split; [|split; [done|split; [done|split]]].
  - simpl. unfold bind at 1, get. rewrite Hrun.
    unfold bind at 1, try_catch, LambdaHooks.poll_and_dispatch, bind at 1, get.
    unfold bind at 1. rewrite Hpoll, Htype. simpl.
    unfold bind at 1. rewrite Hshut. done.
  - rewrite Hlog. unfold some_rejects.
    destruct (existsb _ _) eqn:Hrej.
    + apply existsb_exists in Hrej as (entry & Hin & Hrej).
      destruct (proj2 (dispatch_result_throws (globalThis polled) "SHUTDOWN"
                         (EvNext event) (default [] (hooks polled !! "SHUTDOWN"))))
        as [e He]; [|by rewrite He].
      exists entry. split; [by apply list_elem_of_In|done].
    + destruct (dispatch_result _ _ _ _) as [|e|] eqn:Hr; [done| |done].
      destruct (proj1 (dispatch_result_throws (globalThis polled) "SHUTDOWN"
                         (EvNext event) (default [] (hooks polled !! "SHUTDOWN"))))
        as (entry & Hin & Hrej'); [by eexists|].
      apply list_elem_of_In in Hin.
      assert (existsb (λ e0, rejects (outcome (h_call (handler e0) (EvNext event))))
                (default [] (hooks polled !! "SHUTDOWN")) = true) as Hex
        by (apply existsb_exists; eauto).
      congruence.
  - intros e He. by rewrite Hlog, He.
Qed.

(** The loop of the library's client, a SHUTDOWN event from the host and a
    SHUTDOWN handler that rejects: the handler is launched once, its
    failure is logged by the hook and, wrapped, by the controller, the loop
    ends, and the reply after it stays with the host. *)
Lemma C7_shutdown_with_failing_handler :
  ∃ es,
    LambdaHooks.startEventLoop sample_instance 1
      (running_with handler_failing [shutdown_reply; invoke_reply])
    = (Normal LambdaHooks.Finished,
       set_isRunning false
         (add_effects es
            (snd (ExtensionClient.nextEvent (JStr "id-1")
                    (running_with handler_failing [shutdown_reply; invoke_reply])))))
    ∧ launched "SHUTDOWN" es = [handler_failing]
    ∧ requests es = []
    ∧ logged "Error executing shutdown hooks:" es
      = [ReferenceError "LambdaHookError is not defined"].
Proof.
  destruct (C7_shutdown_event_ends_loop sample_instance 0
              (running_with handler_failing [shutdown_reply; invoke_reply])
              (snd (ExtensionClient.nextEvent (JStr "id-1")
                      (running_with handler_failing [shutdown_reply; invoke_reply])))
              shutdown_event)
    as (es & Hloop & Hlaunched & Hrequests & _ & Hlogged).
  - vm_compute. reflexivity.
  - vm_compute. reflexivity.
  - vm_compute. reflexivity.
  - vm_compute. reflexivity.
  - exists es. split; [exact Hloop|]. split; [|split; [exact Hrequests|]].
    + etransitivity; [exact Hlaunched|]. vm_compute. reflexivity.
    + apply Hlogged. vm_compute. reflexivity.
Defined.

(** C8: when the poll of a running loop throws, the loop logs the error and
    then looks at its [isFatal] flag and at nothing else.  Flag not set: the
    loop goes round again from the logged state.  Flag set: the exit-error
    report is attempted; if it returns the loop ends with [#isRunning]
    cleared, if it throws the failure is logged and the loop ends in the
    same way, never throwing itself (and the loop stays where the report
    stays if the report never returns). *)
Theorem C8_poll_error_reaction (self : LambdaHooks.Instance) (fuel : nat)
    (st polled : State) (error : JsError) :
  isRunning st = true →
  client_nextEvent (LambdaHooks.i_extensionClient self) (st_extensionId st) st
  = (Throw error, polled) →
  let logged := add_effects [ConsoleError "Error in event loop:" error] polled in
  if isFatal error then
    match client_reportExitError (LambdaHooks.i_extensionClient self) error logged with
    | (Normal _, reported) =>
        LambdaHooks.startEventLoop self (S fuel) st
        = (Normal LambdaHooks.Finished, set_isRunning false reported)
    | (Throw reportError, reported) =>
        LambdaHooks.startEventLoop self (S fuel) st
        = (Normal LambdaHooks.Finished,
           set_isRunning false
             (add_effects [ConsoleError "Failed to report exit error:" reportError]
                reported))
    | (Halted s, reported) =>
        LambdaHooks.startEventLoop self (S fuel) st = (Halted s, reported)
    end
  else
    LambdaHooks.startEventLoop self (S fuel) st
    = LambdaHooks.startEventLoop self fuel logged.
Proof.
  intros Hrun Hpoll logged.
  assert (Hloop :
    LambdaHooks.startEventLoop self (S fuel) st
    = match LambdaHooks.on_loop_error self error polled with
      | (Normal LambdaHooks.Break, st') => (Normal LambdaHooks.Finished, st')
      | (Normal LambdaHooks.Continue, st') => LambdaHooks.startEventLoop self fuel st'
      | (Throw e, st') => (Throw e, st')
      | (Halted s, st') => (Halted s, st')
      end).
  { simpl. unfold bind at 1, get. rewrite Hrun.
    unfold bind at 1, try_catch, LambdaHooks.poll_and_dispatch, bind at 1, get.
    unfold bind at 1. rewrite Hpoll.
    destruct (LambdaHooks.on_loop_error self error polled) as [[[|]|e|s] st'];
      reflexivity. }
  rewrite Hloop.
  unfold LambdaHooks.on_loop_error, console_error, emit, modify, bind, try_catch, ret.
  cbv beta. fold logged. destruct (isFatal error); [|reflexivity].
  destruct (client_reportExitError _ error logged) as [[[]|reportError|s] reported];
    reflexivity.
Qed.

(** A poll that fails with an error marked fatal, the report being the one
    of the library: the report throws (C2), that is logged, the loop ends. *)
Lemma C8_fatal_poll_error_example :
  LambdaHooks.startEventLoop
    (instance_failing_poll (LambdaHookError "API_ERROR" "gone" NoCause true)) 1
    (running_with handler_A [])
  = (Normal LambdaHooks.Finished,
     set_isRunning false
       (add_effects
          [ConsoleError "Error in event loop:"
             (LambdaHookError "API_ERROR" "gone" NoCause true);
           ConsoleError "Failed to report exit error:"
             (ReferenceError "extensionId is not defined")]
          (running_with handler_A []))).
Proof.
  pose proof (C8_poll_error_reaction
                (instance_failing_poll (LambdaHookError "API_ERROR" "gone" NoCause true)) 0
                (running_with handler_A []) (running_with handler_A [])
                (LambdaHookError "API_ERROR" "gone" NoCause true)) as H.
  vm_compute in H. vm_compute. apply H; reflexivity.
Defined.


(** * Further properties of the code *)

(** ** [register] *)

Lemma entry_of_acceptable (options : HookRegistry.Options) (item : HookRegistry.Item) :
  is_Some (entry_of options item) ↔ acceptable item.
Proof.
  destruct item as [f|[f|] p|v]; simpl; split; try done; try by eauto.
  all: by intros [? ?].
Qed.

Lemma all_accepted_Forall (options : HookRegistry.Options)
    (handler : HookRegistry.HandlerArg) :
  all_accepted options handler = true ↔ Forall acceptable (items_of handler).
Proof.
  unfold all_accepted. rewrite forallb_forall, Forall_forall.
  split; intros H item Hin.
  - apply (proj1 (entry_of_acceptable options item)).
    apply list_elem_of_In in Hin. apply H in Hin.
    by apply bool_decide_eq_true in Hin.
  - apply bool_decide_eq_true. apply (proj2 (entry_of_acceptable options item)).
    apply H. by apply list_elem_of_In.
Qed.

(** With every item accepted, the accepted prefix is all of them. *)
Lemma accepted_prefix_all (options : HookRegistry.Options)
    (items : list HookRegistry.Item) :
  Forall acceptable items →
  length (accepted_prefix options items) = length items.
Proof.
  induction 1 as [|item items Hitem _ IH]; simpl; [done|].
  apply (proj2 (entry_of_acceptable options item)) in Hitem as [e ->].
  simpl. by rewrite IH.
Qed.

(** On a key that [hooks] only inherits, every call throws and nothing is
    stored. *)
Lemma register_inherited (phase : string) (handler : HookRegistry.HandlerArg)
    (options : HookRegistry.Options) (st : State) (len : JsVal) :
  HookRegistry.property (hooks st) phase = HookRegistry.Inherited len →
  ∃ e, HookRegistry.register phase handler options st = (Throw e, st)
       ∧ (Forall acceptable (items_of handler) → ∃ m, e = TypeError m).
Proof.
  intros H.
  assert (Hitem : ∀ message item,
            ∃ e, HookRegistry.register_item phase options message item st = (Throw e, st)
                 ∧ (acceptable item → ∃ m, e = TypeError m)).
  { intros message item.
    destruct item as [f|[f|] p|v]; simpl;
      unfold HookRegistry.push, bind, get; rewrite ?H, ?throw_new_eq;
      eexists; (split; [reflexivity|]); simpl; intros; by eauto. }
  unfold HookRegistry.register, bind at 1, get. rewrite H.
  destruct handler as [[|item items]|item]; simpl.
  - unfold bind, ret, HookRegistry.sort_hooks, bind, get. rewrite H.
    eexists. split; [reflexivity|]. eauto.
  - destruct (Hitem "Each item in the array must be a function or an object with a handler function" item)
      as (e & E & He).
    unfold bind. rewrite E. exists e. split; [done|].
    intros Hall. apply He. by inversion Hall.
  - destruct (Hitem "Handler must be a function, an array of functions, or an object with a handler function" item)
      as (e & E & He).
    unfold bind. rewrite E. exists e. split; [done|].
    intros Hall. apply He. by inversion Hall.
Qed.

(** X1: whether it returns or throws, [register] leaves every field of the
    state but [hooks] as it was, changes no list but that of its own phase,
    and neither adds nor removes a phase. *)
Theorem register_touches_its_phase_only (phase : string)
    (handler : HookRegistry.HandlerArg) (options : HookRegistry.Options)
    (st : State) (other : string) :
  let st' := snd (HookRegistry.register phase handler options st) in
  st' = set_hooks (hooks st') st
  ∧ dom (hooks st') = dom (hooks st)
  ∧ (other ≠ phase → hooks st' !! other = hooks st !! other).
Proof.
  simpl. destruct (hooks st !! phase) as [entries|] eqn:H.
  - destruct (register_own phase handler options st entries H) as [m ->].
    destruct (all_accepted options handler); simpl;
      (split; [done|]); (split; [apply dom_insert_lookup_L; eauto|]);
      intros Hne; by apply lookup_insert_ne.
  - destruct (HookRegistry.property (hooks st) phase) as [l|len|] eqn:Hp.
    + unfold HookRegistry.property in Hp. rewrite H in Hp.
      destruct (find _ _); done.
    + destruct (register_inherited phase handler options st len Hp) as (e & -> & _).
      simpl. by rewrite set_hooks_id.
    + rewrite (register_unknown _ _ _ _ Hp). simpl. by rewrite set_hooks_id.
Qed.

(** X2: on a phase of the registry, [register] returns exactly when every
    item is a function or an object with a function as [handler]. *)
Theorem register_returns_iff_items_acceptable (phase : string)
    (handler : HookRegistry.HandlerArg) (options : HookRegistry.Options)
    (st : State) (entries : list HookEntry) :
  hooks st !! phase = Some entries →
  fst (HookRegistry.register phase handler options st) = Normal tt
  ↔ Forall acceptable (items_of handler).
Proof.
  intros H. rewrite <- (all_accepted_Forall options).
  destruct (register_own phase handler options st entries H) as [m ->].
  destruct (all_accepted options handler); simpl; split; done.
Qed.

Lemma register_returns_iff_example :
  fst (HookRegistry.register "INIT"
         (HookRegistry.ArrayOf [HookRegistry.Function handler_A; with_priority handler_B 3])
         no_options (LambdaHooks.fresh node_globals [])) = Normal tt
  ↔ Forall acceptable [HookRegistry.Function handler_A; with_priority handler_B 3].
Proof.
  apply (register_returns_iff_items_acceptable "INIT"
           (HookRegistry.ArrayOf [HookRegistry.Function handler_A; with_priority handler_B 3])
           no_options (LambdaHooks.fresh node_globals []) []).
  reflexivity.
Defined.

(** X3: a call that returns leaves the list of its phase in order of
    priority, whatever order it found (a failed call may have left it
    unsorted), and that list holds the old entries and one new entry per
    item, no more and no less. *)
Theorem register_leaves_phase_sorted (phase : string)
    (handler : HookRegistry.HandlerArg) (options : HookRegistry.Options)
    (st : State) (entries : list HookEntry) :
  hooks st !! phase = Some entries →
  fst (HookRegistry.register phase handler options st) = Normal tt →
  ∃ entries',
    hooks (snd (HookRegistry.register phase handler options st)) !! phase
    = Some entries'
    ∧ Sorted (not_before priority) entries'
    ∧ entries' ≡ₚ entries ++ accepted_prefix options (items_of handler)
    ∧ length entries' = (length entries + length (items_of handler))%nat.
Proof.
  intros H Hret.
  destruct (register_own phase handler options st entries H) as [m E].
  rewrite E in Hret |- *.
  destruct (all_accepted options handler) eqn:Hall; [|done].
  apply all_accepted_Forall in Hall. simpl. eexists. split; [apply lookup_insert_eq|].
  split; [rewrite by_priority_descending; apply Array_sort_sorted|].
  split; [apply Array_sort_perm|].
  by rewrite Array_sort_length, length_app, accepted_prefix_all.
Qed.

Lemma register_leaves_phase_sorted_example :
  ∃ entries',
    hooks (snd (HookRegistry.register "INVOKE"
                  (HookRegistry.Single (with_priority handler_C 7)) no_options
                  (register_all "INVOKE"
                     [ {| c_handler := HookRegistry.Single (with_priority handler_A 0);
                          c_options := no_options |};
                       {| c_handler :=
                            HookRegistry.ArrayOf
                              [with_priority handler_B 20; HookRegistry.Primitive JNull];
                          c_options := no_options |} ]
                     (LambdaHooks.fresh node_globals [])))) !! "INVOKE"
    = Some entries'
    ∧ Sorted (not_before priority) entries'.
Proof.
  destruct (register_leaves_phase_sorted "INVOKE"
              (HookRegistry.Single (with_priority handler_C 7)) no_options
              (register_all "INVOKE"
                 [ {| c_handler := HookRegistry.Single (with_priority handler_A 0);
                      c_options := no_options |};
                   {| c_handler :=
                        HookRegistry.ArrayOf
                          [with_priority handler_B 20; HookRegistry.Primitive JNull];
                      c_options := no_options |} ]
                 (LambdaHooks.fresh node_globals []))
              [ {| handler := handler_A; priority := 0 |};
                {| handler := handler_B; priority := 20 |} ])
    as (entries' & Hentries & Hsorted & _).
  - vm_compute. reflexivity.
  - vm_compute. reflexivity.
  - exists entries'. split; [exact Hentries | exact Hsorted].
Defined.

(** A one-item array and the item alone are registered by the same steps. *)
Lemma register_single_as_array (phase : string) (item : HookRegistry.Item)
    (options : HookRegistry.Options) (st : State) :
  acceptable item →
  HookRegistry.register phase (HookRegistry.ArrayOf [item]) options st
  = HookRegistry.register phase (HookRegistry.Single item) options st.
Proof.
  intros Hitem. destruct item as [f|[f|] p|v]; try done.
  all: unfold HookRegistry.register; cbn [forEach HookRegistry.register_item].
  all: unfold bind, ret, get.
  all: destruct (HookRegistry.property (hooks st) phase); try reflexivity.
  all: match goal with |- context [HookRegistry.push ?a ?b ?s] =>
         destruct (HookRegistry.push a b s) as [[[]|?|?] ?] end; reflexivity.
Qed.

(** X4: the forms of a registration are interchangeable.  For a handler
    and a priority, the bare function with the priority as default of the
    call, the object carrying the priority, and either of them alone in an
    array, make [register] end in the same way in the same state, on every
    phase name and in every state. *)
Theorem register_form_independent (phase : string) (f : Handler) (p : Z) (st : State) :
  let bare := HookRegistry.register phase
                (HookRegistry.Single (HookRegistry.Function f)) (default_priority p) st in
  HookRegistry.register phase (HookRegistry.Single (with_priority f p)) no_options st
  = bare
  ∧ HookRegistry.register phase (HookRegistry.ArrayOf [HookRegistry.Function f])
      (default_priority p) st = bare
  ∧ HookRegistry.register phase (HookRegistry.ArrayOf [with_priority f p])
      no_options st = bare.
Proof.
  assert (Hobj : HookRegistry.register phase (HookRegistry.Single (with_priority f p))
                   no_options st
                 = HookRegistry.register phase
                     (HookRegistry.Single (HookRegistry.Function f)) (default_priority p) st).
  { unfold HookRegistry.register, with_priority. simpl.
    by rewrite or_zero_Some, or_zero_own by auto. }
  simpl. split; [done|]. split.
  - by apply register_single_as_array.
  - rewrite <- Hobj. by apply register_single_as_array.
Qed.

(** X5: an item's own priority, when it is not 0, is the priority of the
    entry stored, whatever default the options of the call give. *)
Theorem register_keeps_own_priority (phase : string) (f : Handler) (p : Z)
    (options : HookRegistry.Options) (st : State) (entries : list HookEntry) :
  hooks st !! phase = Some entries →
  p ≠ 0 →
  HookRegistry.register phase (HookRegistry.Single (with_priority f p)) options st
  = (Normal tt,
     set_hooks
       (<[phase := Array_sort HookRegistry.by_priority
                     (entries ++ [{| handler := f; priority := p |}])]> (hooks st))
       st).
Proof.
  intros H Hp.
  destruct (register_own phase (HookRegistry.Single (with_priority f p)) options
              st entries H) as [m ->].
  simpl. by rewrite own_priority_kept.
Qed.

Lemma register_keeps_own_priority_example :
  hooks (snd (HookRegistry.register "SHUTDOWN"
                (HookRegistry.Single (with_priority handler_A (-3)))
                (default_priority 9) (LambdaHooks.fresh node_globals []))) !! "SHUTDOWN"
  = Some [{| handler := handler_A; priority := -3 |}].
Proof.
  rewrite (register_keeps_own_priority "SHUTDOWN" handler_A (-3) (default_priority 9)
             (LambdaHooks.fresh node_globals []) []).
  - vm_compute. reflexivity.
  - reflexivity.
  - lia.
Defined.

(** X6: a phase name that is a member of [Object.prototype] passes the
    check of the event type, because [hooks[eventType]] finds the inherited
    member; registering a handler under it then throws a TypeError, not
    INVALID_EVENT_TYPE, and stores nothing. *)
Theorem register_inherited_key (key : string) (f : Handler)
    (options : HookRegistry.Options) (st : State) :
  key ∈ inherited_keys →
  hooks st !! key = None →
  ∃ m,
    HookRegistry.register key (HookRegistry.Single (HookRegistry.Function f)) options st
    = (Throw (TypeError m), st).
Proof.
  intros Hkey Hown.
  assert (∃ len, HookRegistry.property (hooks st) key = HookRegistry.Inherited len)
    as [len Hp].
  { unfold HookRegistry.property. rewrite Hown.
    unfold inherited_keys in Hkey.
    apply list_elem_of_fmap in Hkey as ([k len] & Hk & Hin). simpl in Hk. subst key.
    destruct (find (λ m, String.eqb (fst m) k) HookRegistry.Object_prototype)
      as [[k' len']|] eqn:Hf; [by eexists|].
    exfalso. apply list_elem_of_In in Hin.
    apply (find_none _ _ Hf) in Hin. simpl in Hin.
    by rewrite String.eqb_refl in Hin. }
  destruct (register_inherited key (HookRegistry.Single (HookRegistry.Function f))
              options st len Hp) as (e & E & He).
  destruct He as [m ->]; [by repeat constructor|]. by exists m.
Qed.

Lemma register_inherited_key_example :
  ∃ m,
    HookRegistry.register "toString" (HookRegistry.Single (HookRegistry.Function handler_A))
      no_options (LambdaHooks.fresh node_globals [])
    = (Throw (TypeError m), LambdaHooks.fresh node_globals []).
Proof.
  apply (register_inherited_key "toString" handler_A no_options
           (LambdaHooks.fresh node_globals [])).
  - apply (bool_decide_unpack _). vm_compute. exact I.
  - reflexivity.
Defined.

(** X7: registering an empty array on a phase whose list is in order
    returns and changes nothing. *)
Theorem register_empty_array (phase : string) (options : HookRegistry.Options)
    (st : State) (entries : list HookEntry) :
  hooks st !! phase = Some entries →
  Sorted (not_before priority) entries →
  HookRegistry.register phase (HookRegistry.ArrayOf []) options st = (Normal tt, st).
Proof.
  intros H Hsorted.
  destruct (register_own phase (HookRegistry.ArrayOf []) options st entries H) as [m ->].
  simpl. rewrite app_nil_r, by_priority_descending, Array_sort_sorted_id by done.
  by rewrite (insert_id _ _ _ H), set_hooks_id.
Qed.

Lemma register_empty_array_example :
  HookRegistry.register "INIT" (HookRegistry.ArrayOf []) no_options
    (LambdaHooks.fresh node_globals [])
  = (Normal tt, LambdaHooks.fresh node_globals []).
Proof.
  apply (register_empty_array "INIT" no_options (LambdaHooks.fresh node_globals []) []).
  - reflexivity.
  - constructor.
Defined.

(** ** [executeHooks] *)

Lemma Array_sort_ext {A} (f g : A → A → Z) (l : list A) :
  (∀ a b, f a b = g a b) → Array_sort f l = Array_sort g l.
Proof.
  intros Hfg. induction l as [|x l IH]; simpl; [done|]. rewrite IH.
  generalize (Array_sort g l). intros s.
  induction s as [|y s IHs]; simpl; [done|]. by rewrite Hfg, IHs.
Qed.

Lemma Sorted_weaken {A} (R R' : A → A → Prop) (l : list A) :
  (∀ a b, R a b → R' a b) → Sorted R l → Sorted R' l.
Proof.
  intros HR. induction 1 as [|x l Hl IH Hx]; constructor; [done|].
  destruct Hx; constructor; auto.
Qed.

(** The settlements are gone through in order of tick. *)
Lemma runs_sorted_by_tick (runs : list (HookEntry * Settlement)) :
  StronglySorted (λ a b, tick (snd a) ≤ tick (snd b))
    (Array_sort HookRegistry.by_tick runs).
Proof.
  rewrite (Array_sort_ext _ (descending (λ r, - tick (snd r))))
    by (intros a b; unfold HookRegistry.by_tick, descending; lia).
  apply Sorted_StronglySorted; [intros a b c; lia|].
  eapply Sorted_weaken; [|apply Array_sort_sorted].
  intros a b. unfold not_before. lia.
Qed.

(** In a list gone through in that order, the first rejection met is one
    that no other rejection precedes in time. *)
Lemma first_rejection_earliest (g : gmap string JsVal) (phase : string)
    (runs : list (HookEntry * Settlement)) (e : JsError) :
  StronglySorted (λ a b, tick (snd a) ≤ tick (snd b)) runs →
  head (omap (rejection_of g phase) runs) = Some e →
  ∃ run, run ∈ runs
    ∧ rejection_of g phase run = Some e
    ∧ ∀ run', run' ∈ runs → rejects (outcome (snd run')) = true →
        tick (snd run) ≤ tick (snd run').
Proof.
  induction 1 as [|run runs Hs IH Hall]; simpl; [done|].
  destruct (rejection_of g phase run) as [e'|] eqn:Hrej; simpl.
  - intros [= ->]. exists run. split; [left|]. split; [done|].
    intros run' Hin _. apply elem_of_cons in Hin as [-> | Hin]; [lia|].
    rewrite Forall_forall in Hall. by apply Hall.
  - intros Hhd. destruct (IH Hhd) as (first & Hin & Hfirst & Hmin).
    exists first. split; [by right|]. split; [done|].
    intros run' Hin' Hrej'. apply elem_of_cons in Hin' as [-> | Hin']; [|by apply Hmin].
    unfold rejection_of in Hrej. by destruct (outcome (snd run)).
Qed.

Lemma launched_other_phase (phase phase' : string) (event : Event)
    (entries : list HookEntry) :
  phase' ≠ phase →
  launched phase' (dispatch_effects phase event entries) = [].
Proof.
  intros Hne. unfold dispatch_effects.
  rewrite launched_app, launched_settlements, app_nil_r.
  induction entries as [|e entries IH]; simpl; [done|].
  destruct (String.eqb phase phase') eqn:E; [|done].
  apply String.eqb_eq in E. congruence.
Qed.

(** A dispatch adds to the trace and does nothing else; it sends no request
    and launches no handler of another phase. *)
Lemma executeHooks_frame (phase : string) (event : Event) (st : State) :
  ∃ (r : Completion unit) (es : list Effect),
    HookRegistry.executeHooks phase event st = (r, add_effects es st)
    ∧ (r = Normal tt ∨ (∃ e, r = Throw e) ∨ r = Halted Blocked)
    ∧ launched phase es = map handler (entries_of phase st)
    ∧ requests es = []
    ∧ ∀ phase', phase' ≠ phase → launched phase' es = [].
Proof.
  unfold entries_of. destruct (hooks st !! phase) as [entries|] eqn:H.
  - rewrite (executeHooks_own _ _ _ _ H). do 2 eexists. split; [done|].
    split; [unfold dispatch_result; destruct (head _);
            [eauto|destruct (existsb _ _); eauto]|].
    split; [apply launched_dispatch|]. split; [apply requests_dispatch|].
    intros phase' Hne. by apply launched_other_phase.
  - exists (fst (HookRegistry.executeHooks phase event st)), [].
    unfold HookRegistry.executeHooks, bind, get, HookRegistry.property. rewrite H.
    rewrite add_effects_nil.
    destruct (find _ _) as [[? [| | |[| |]| | |]]|]; simpl; eauto 10.
Qed.

(** X8: a dispatch on a phase with no entry, or on a name that is no
    property of [hooks], returns at once and changes nothing. *)
Theorem executeHooks_without_entries (phase : string) (event : Event) (st : State) :
  hooks st !! phase = Some []
  ∨ HookRegistry.property (hooks st) phase = HookRegistry.Undefined →
  HookRegistry.executeHooks phase event st = (Normal tt, st).
Proof.
  intros [H|H].
  - rewrite (executeHooks_own _ _ _ _ H).
    unfold dispatch_result, dispatch_effects. simpl. by rewrite add_effects_nil.
  - unfold HookRegistry.executeHooks, bind, get. by rewrite H.
Qed.

Lemma executeHooks_without_entries_example :
  HookRegistry.executeHooks "INVOKE" sample_event (LambdaHooks.fresh node_globals [])
  = (Normal tt, LambdaHooks.fresh node_globals [])
  ∧ HookRegistry.executeHooks "DEPLOY" sample_event (LambdaHooks.fresh node_globals [])
    = (Normal tt, LambdaHooks.fresh node_globals []).
Proof.
  split.
  - apply (executeHooks_without_entries "INVOKE" sample_event
             (LambdaHooks.fresh node_globals [])).
    left. reflexivity.
  - apply (executeHooks_without_entries "DEPLOY" sample_event
             (LambdaHooks.fresh node_globals [])).
    right. vm_compute. reflexivity.
Defined.

(** X9: whatever the phase name and however the handlers end, a dispatch
    only adds to the trace: the registry, the controller's fields, the
    listeners and the host conversation are as before; it sends no request
    and launches no handler registered for another phase. *)
Theorem executeHooks_only_adds_to_trace (phase : string) (event : Event) (st : State) :
  ∃ es,
    snd (HookRegistry.executeHooks phase event st) = add_effects es st
    ∧ requests es = []
    ∧ ∀ phase', phase' ≠ phase → launched phase' es = [].
Proof.
  destruct (executeHooks_frame phase event st) as (r & es & -> & _ & _ & Hq & Hl).
  by exists es.
Qed.

(** X10: on a phase of the registry, a dispatch throws exactly when the
    promise of some handler of that phase is rejected. *)
Theorem executeHooks_throws_iff_a_handler_rejects (phase : string) (event : Event)
    (st : State) (entries : list HookEntry) :
  hooks st !! phase = Some entries →
  (∃ e, fst (HookRegistry.executeHooks phase event st) = Throw e)
  ↔ ∃ entry, entry ∈ entries
      ∧ rejects (outcome (h_call (handler entry) event)) = true.
Proof.
  intros H. rewrite (executeHooks_own _ _ _ _ H). simpl.
  apply dispatch_result_throws.
Qed.

Lemma executeHooks_throws_iff_example :
  (∃ e, fst (HookRegistry.executeHooks "INVOKE" sample_event
               (register_all "INVOKE"
                  [ {| c_handler := HookRegistry.ArrayOf
                                      [HookRegistry.Function handler_A;
                                       HookRegistry.Function handler_failing];
                       c_options := no_options |} ]
                  (LambdaHooks.fresh node_globals []))) = Throw e)
  ↔ ∃ entry, entry ∈ [ {| handler := handler_A; priority := 0 |};
                       {| handler := handler_failing; priority := 0 |} ]
      ∧ rejects (outcome (h_call (handler entry) sample_event)) = true.
Proof.
  apply (executeHooks_throws_iff_a_handler_rejects "INVOKE" sample_event
           (register_all "INVOKE"
              [ {| c_handler := HookRegistry.ArrayOf
                                  [HookRegistry.Function handler_A;
                                   HookRegistry.Function handler_failing];
                   c_options := no_options |} ]
              (LambdaHooks.fresh node_globals []))).
  vm_compute. reflexivity.
Defined.

(** X12: where the registry module can reach the error class, a dispatch
    that throws throws HOOK_EXECUTION_ERROR, with the phase in its message,
    around the error of a handler that rejected and that no other rejecting
    handler of the phase preceded in time. *)
Theorem executeHooks_surfaces_first_rejection (phase : string) (event : Event)
    (st : State) (entries : list HookEntry) (e : JsError) :
  globalThis st !! "LambdaHookError" = Some JLambdaHookErrorClass →
  hooks st !! phase = Some entries →
  fst (HookRegistry.executeHooks phase event st) = Throw e →
  ∃ entry error,
    entry ∈ entries
    ∧ outcome (h_call (handler entry) event) = Rejects error
    ∧ e = LambdaHookError "HOOK_EXECUTION_ERROR"
            ("Error executing " +:+ phase +:+ " hook") (CausedBy error) false
    ∧ ∀ other, other ∈ entries →
        rejects (outcome (h_call (handler other) event)) = true →
        tick (h_call (handler entry) event) ≤ tick (h_call (handler other) event).
Proof.
  intros Hg H. rewrite (executeHooks_own _ _ _ _ H). simpl.
  unfold dispatch_result.
  destruct (head _) as [e'|] eqn:Hhd; [|by destruct (existsb _ _)]. intros [= ->].
  apply first_rejection_earliest in Hhd as (run & Hin & Hrej & Hmin);
    [|apply runs_sorted_by_tick].
  rewrite Array_sort_perm, list_elem_of_fmap in Hin. destruct Hin as (entry & -> & Hent).
  unfold rejection_of, run_of, thrown_by_new in Hrej. simpl in Hrej. rewrite Hg in Hrej.
  destruct (outcome (h_call (handler entry) event)) as [|error|] eqn:Ho;
    [done| |done].
  injection Hrej as <-. exists entry, error. repeat split; try done.
  intros other Hother Hrejects.
  apply (Hmin (run_of event other)); [|done].
  rewrite Array_sort_perm, list_elem_of_fmap. eauto.
Qed.

Lemma executeHooks_surfaces_first_rejection_example :
  ∃ entry error,
    entry ∈ [ {| handler := handler_failing_late; priority := 0 |};
              {| handler := handler_failing; priority := 0 |} ]
    ∧ outcome (h_call (handler entry) sample_event) = Rejects error
    ∧ LambdaHookError "HOOK_EXECUTION_ERROR" "Error executing INVOKE hook"
        (CausedBy boom) false
      = LambdaHookError "HOOK_EXECUTION_ERROR"
          ("Error executing " +:+ "INVOKE" +:+ " hook") (CausedBy error) false.
Proof.
  destruct (executeHooks_surfaces_first_rejection "INVOKE" sample_event
              (register_all "INVOKE"
                 [ {| c_handler := HookRegistry.ArrayOf
                                     [HookRegistry.Function handler_failing_late;
                                      HookRegistry.Function handler_failing];
                      c_options := no_options |} ]
                 (LambdaHooks.fresh globals_with_class []))
              [ {| handler := handler_failing_late; priority := 0 |};
                {| handler := handler_failing; priority := 0 |} ]
              (LambdaHookError "HOOK_EXECUTION_ERROR" "Error executing INVOKE hook"
                 (CausedBy boom) false))
    as (entry & error & Hin & Hout & He & _).
  - vm_compute. reflexivity.
  - vm_compute. reflexivity.
  - vm_compute. reflexivity.
  - exists entry, error. split; [exact Hin|]. split; [exact Hout | exact He].
Defined.

(** ** The protocol client *)

Lemma set_host_id (st : State) : set_host (host st) st = st.
Proof. by destruct st. Qed.

Lemma after_io_nothing (st : State) : after_io [] (host st) st = st.
Proof. unfold after_io. by rewrite add_effects_nil, set_host_id. Qed.

Lemma after_io_twice (es1 es2 : list Effect) (r1 r2 : list HostReply) (st : State) :
  after_io es2 r2 (after_io es1 r1 st) = after_io (es1 ++ es2) r2 st.
Proof. unfold after_io, set_host, add_effects. simpl. by rewrite app_assoc. Qed.

Lemma add_effects_after_io (es1 es2 : list Effect) (r : list HostReply) (st : State) :
  add_effects es2 (after_io es1 r st) = after_io (es1 ++ es2) r st.
Proof. unfold after_io, set_host, add_effects. simpl. by rewrite app_assoc. Qed.

(** One call of [makeRequest]: the request goes out, the next reply of the
    host, if there is one, is used up and decides how the call ends. *)
Lemma makeRequest_eq (method path : string) (headers : list (string * JsVal))
    (body : RequestBody) (st : State) :
  ExtensionClient.makeRequest method path headers body st
  = (answer (host st),
     after_io [HttpRequest method path headers body] (tail (host st)) st).
Proof.
  unfold ExtensionClient.makeRequest, bind, emit, modify, get, halt, answer, after_io.
  destruct st as [running identifier registry globals replies installed effects].
  simpl. destruct replies as [|[res|error] rest]; simpl; [done| |done].
  by destruct (ExtensionClient.is_2xx (statusCode res)).
Qed.

Lemma answer_not_fatal (replies : list HostReply) (e : JsError) :
  answer replies = Throw e →
  isFatal e = false
  ∧ (code_of e = Some "API_ERROR" ∨ code_of e = Some "NETWORK_ERROR").
Proof.
  destruct replies as [|[res|error] rest]; simpl; [done| |].
  - destruct (ExtensionClient.is_2xx (statusCode res)); [done|].
    intros [= <-]. auto.
  - intros [= <-]. auto.
Qed.

Lemma client_register_eq (options : ExtensionClient.Options) (events : list string)
    (st : State) :
  ExtensionClient.register options events st
  = (match answer (host st) with
     | Normal res =>
         if truthy (identifierHeader res) then Normal (registration_of res)
         else Throw (LambdaHookError "INVALID_RESPONSE"
                       "Extension ID not received in registration response" NoCause false)
     | Throw e => Throw e
     | Halted s => Halted s
     end,
     after_io [register_request options events] (tail (host st)) st).
Proof.
  unfold ExtensionClient.register, bind. rewrite makeRequest_eq.
  fold (register_request options events).
  destruct (answer (host st)) as [res|e|s]; [|done|done].
  by destruct (truthy (identifierHeader res)).
Qed.

Lemma nextEvent_eq (extensionId : JsVal) (st : State) :
  truthy extensionId = true →
  ExtensionClient.nextEvent extensionId st
  = (match answer (host st) with
     | Normal res => Normal (event_of res)
     | Throw e => Throw e
     | Halted s => Halted s
     end,
     after_io [poll_request extensionId] (tail (host st)) st).
Proof.
  intros Hid. unfold ExtensionClient.nextEvent, bind. rewrite Hid. simpl.
  rewrite makeRequest_eq. fold (poll_request extensionId).
  by destruct (answer (host st)).
Qed.

Lemma report_eq (path not_registered : string) (error : JsError) (st : State) :
  ExtensionClient.report path not_registered error st
  = match globalThis st !! "extensionId" with
    | None => (Throw (ReferenceError "extensionId is not defined"), st)
    | Some extensionId =>
        if truthy extensionId then
          (match answer (host st) with
           | Normal _ => Normal tt
           | Throw e => Throw e
           | Halted s => Halted s
           end,
           after_io
             [HttpRequest "POST" path
                [("Lambda-Extension-Identifier", extensionId);
                 ("Lambda-Extension-Function-Error-Type",
                  JStr (ExtensionClient.errorType_of error))]
                (ErrorBody (ExtensionClient.errorMessage_of error)
                   (ExtensionClient.errorType_of error))]
             (tail (host st)) st)
        else (Throw (LambdaHookError "INVALID_STATE" not_registered NoCause false), st)
    end.
Proof.
  unfold ExtensionClient.report, bind at 1, global_reference.
  destruct (globalThis st !! "extensionId") as [extensionId|]; [|done].
  destruct (truthy extensionId); simpl; [|done].
  unfold bind. rewrite makeRequest_eq. by destruct (answer (host st)).
Qed.

(** The operations of the client touch the trace and the host conversation
    only, with one request and one reply at most. *)
Lemma report_io (path not_registered : string) (error : JsError) (st : State) :
  ∃ es replies,
    snd (ExtensionClient.report path not_registered error st) = after_io es replies st
    ∧ ((es = [] ∧ replies = host st)
       ∨ (requests es = [("POST", path)] ∧ replies = tail (host st))).
Proof.
  rewrite report_eq. destruct (globalThis st !! "extensionId") as [extensionId|].
  - destruct (truthy extensionId); simpl.
    + do 2 eexists. split; [done|]. right. done.
    + exists [], (host st). rewrite after_io_nothing. auto.
  - exists [], (host st). rewrite after_io_nothing. auto.
Qed.

(** X13: the client keeps no state and never retries.  Each of its four
    operations leaves the registry, the controller's fields and the
    listeners alone, and either sends nothing (the checks that precede the
    request failed) or sends exactly one request and uses up exactly one
    reply of the host, however the call ends. *)
Theorem client_operations_one_exchange (options : ExtensionClient.Options)
    (events : list string) (extensionId : JsVal) (error : JsError) (st : State) :
  one_exchange_at_most st (snd (ExtensionClient.register options events st))
  ∧ one_exchange_at_most st (snd (ExtensionClient.nextEvent extensionId st))
  ∧ one_exchange_at_most st (snd (ExtensionClient.reportInitError error st))
  ∧ one_exchange_at_most st (snd (ExtensionClient.reportExitError error st)).
Proof.
  unfold one_exchange_at_most. repeat split.
  - rewrite client_register_eq. simpl. do 2 eexists. split; [done|]. right. done.
  - destruct (truthy extensionId) eqn:Hid.
    + rewrite (nextEvent_eq _ _ Hid). simpl. do 2 eexists. split; [done|]. right. done.
    + unfold ExtensionClient.nextEvent. rewrite Hid. simpl.
      exists [], (host st). rewrite after_io_nothing. auto.
  - unfold ExtensionClient.reportInitError.
    destruct (report_io "init/error" "Cannot report init error: Extension not registered"
                error st) as (es & replies & -> & [[-> ->]|[Hq ->]]);
      do 2 eexists; (split; [done|]); [by left|right]. by rewrite Hq.
  - unfold ExtensionClient.reportExitError.
    destruct (report_io "exit/error" "Cannot report exit error: Extension not registered"
                error st) as (es & replies & -> & [[-> ->]|[Hq ->]]);
      do 2 eexists; (split; [done|]); [by left|right]. by rewrite Hq.
Qed.

Lemma report_errors_not_fatal (path not_registered : string) (error : JsError)
    (st st' : State) (e : JsError) :
  ExtensionClient.report path not_registered error st = (Throw e, st') →
  isFatal e = false.
Proof.
  rewrite report_eq. destruct (globalThis st !! "extensionId") as [extensionId|].
  - destruct (truthy extensionId).
    + destruct (answer (host st)) as [res|e'|s] eqn:Ha; [done| |done].
      intros [= <- _]. by apply answer_not_fatal in Ha as [? _].
    + by intros [= <- _].
  - by intros [= <- _].
Qed.

Lemma client_register_errors_not_fatal (options : ExtensionClient.Options)
    (events : list string) (st st' : State) (e : JsError) :
  ExtensionClient.register options events st = (Throw e, st') → isFatal e = false.
Proof.
  rewrite client_register_eq.
  destruct (answer (host st)) as [res|e'|s] eqn:Ha; [| |done].
  - destruct (truthy (identifierHeader res)); [done|]. by intros [= <- _].
  - intros [= <- _]. by apply answer_not_fatal in Ha as [? _].
Qed.

(** X16: no error that an operation of the library's client throws is
    marked fatal. *)
Theorem client_errors_never_fatal (options : ExtensionClient.Options)
    (events : list string) (extensionId : JsVal) (error : JsError)
    (st st' : State) (e : JsError) :
  ExtensionClient.register options events st = (Throw e, st')
  ∨ ExtensionClient.nextEvent extensionId st = (Throw e, st')
  ∨ ExtensionClient.reportInitError error st = (Throw e, st')
  ∨ ExtensionClient.reportExitError error st = (Throw e, st') →
  isFatal e = false.
Proof.
  intros [H|[H|[H|H]]].
  - eapply client_register_errors_not_fatal, H.
  - eapply nextEvent_errors_not_fatal, H.
  - eapply report_errors_not_fatal, H.
  - eapply report_errors_not_fatal, H.
Qed.

Lemma client_errors_never_fatal_example :
  isFatal (LambdaHookError "API_ERROR" "API request failed" (StatusData 503 "") false)
  = false.
Proof.
  apply (client_errors_never_fatal library_options ["INVOKE"] (JStr "id-1") boom
           (LambdaHooks.fresh node_globals [reply 503 JUndefined JUndefined])
           (after_io [poll_request (JStr "id-1")] []
              (LambdaHooks.fresh node_globals [reply 503 JUndefined JUndefined]))).
  right. left. vm_compute. reflexivity.
Defined.

(** ** The poll loop *)

(** On the three phases a dispatch is what [dispatch_result] and
    [dispatch_effects] say of the entries of the phase, none if the registry
    has lost the phase. *)
Lemma executeHooks_phase (phase : string) (event : Event) (st : State) :
  phase ∈ ["INIT"; "INVOKE"; "SHUTDOWN"] →
  HookRegistry.executeHooks phase event st
  = (dispatch_result (globalThis st) phase event (entries_of phase st),
     add_effects (dispatch_effects phase event (entries_of phase st)) st).
Proof.
  intros Hphase. unfold entries_of.
  destruct (hooks st !! phase) as [entries|] eqn:H; [by apply executeHooks_own|].
  unfold HookRegistry.executeHooks, bind, get, HookRegistry.property. rewrite H.
  unfold dispatch_result, dispatch_effects. simpl. rewrite add_effects_nil.
  repeat (apply elem_of_cons in Hphase as [-> | Hphase]; [done|]).
  by apply elem_of_nil in Hphase.
Qed.


(** Where the INVOKE dispatch settles, [handleInvoke] never throws: it runs
    the INVOKE hooks once and logs a failure. *)
Lemma handleInvoke_eq (event : Event) (st : State) :
  dispatch_settles "INVOKE" event st = true →
  ∃ es,
    LambdaHooks.handleInvoke event st = (Normal tt, add_effects es st)
    ∧ launched "INVOKE" es = map handler (entries_of "INVOKE" st)
    ∧ launched "SHUTDOWN" es = []
    ∧ requests es = [].
Proof.
  intros Hsettles. pose proof (dispatch_result_settles _ _ _ Hsettles) as Hne.
  unfold LambdaHooks.handleInvoke, try_catch.
  rewrite (executeHooks_phase "INVOKE") by (by repeat constructor).
  change (default [] (hooks st !! "INVOKE")) with (entries_of "INVOKE" st) in Hne.
  set (entries := entries_of "INVOKE" st) in *.
  destruct (dispatch_result _ _ _ _) as [[]|e|s] eqn:Hr.
  - exists (dispatch_effects "INVOKE" event entries).
    rewrite launched_dispatch, requests_dispatch, launched_other_phase; done.
  - exists (dispatch_effects "INVOKE" event entries
            ++ [ConsoleError "Error executing invoke hooks:" e]).
    unfold console_error, emit, modify. rewrite add_effects_twice.
    rewrite !launched_app, requests_app, launched_dispatch, requests_dispatch,
      launched_other_phase by done.
    simpl. by rewrite app_nil_r.
  - by destruct (Hne s).
Qed.

Lemma handleShutdown_effects (event : Event) (st : State) :
  dispatch_settles "SHUTDOWN" event st = true →
  ∃ es,
    LambdaHooks.handleShutdown event st
    = (Normal tt, set_isRunning false (add_effects es st))
    ∧ launched "SHUTDOWN" es = map handler (entries_of "SHUTDOWN" st)
    ∧ launched "INVOKE" es = []
    ∧ requests es = [].
Proof.
  intros Hsettles. pose proof (dispatch_result_settles _ _ _ Hsettles) as Hne.
  unfold LambdaHooks.handleShutdown, try_finally, try_catch, modify.
  rewrite (executeHooks_phase "SHUTDOWN") by (by repeat constructor).
  change (default [] (hooks st !! "SHUTDOWN")) with (entries_of "SHUTDOWN" st) in Hne.
  set (entries := entries_of "SHUTDOWN" st) in *.
  destruct (dispatch_result _ _ _ _) as [[]|e|s] eqn:Hr.
  - exists (dispatch_effects "SHUTDOWN" event entries).
    rewrite launched_dispatch, requests_dispatch, launched_other_phase; done.
  - exists (dispatch_effects "SHUTDOWN" event entries
            ++ [ConsoleError "Error executing shutdown hooks:" e]).
    unfold console_error, emit, modify. rewrite add_effects_twice.
    rewrite !launched_app, requests_app, launched_dispatch, requests_dispatch,
      launched_other_phase by done.
    simpl. by rewrite app_nil_r.
  - by destruct (Hne s).
Qed.

(** One turn of the loop of a running controller. *)
Lemma loop_turn (self : LambdaHooks.Instance) (fuel : nat) (st : State) :
  isRunning st = true →
  LambdaHooks.startEventLoop self (S fuel) st
  = match client_nextEvent (LambdaHooks.i_extensionClient self) (st_extensionId st) st with
    | (Normal event, polled) =>
        if strict_eq_str (eventType event) "SHUTDOWN" then
          match LambdaHooks.handleShutdown (EvNext event) polled with
          | (Normal _, st') => (Normal LambdaHooks.Finished, st')
          | (Throw e, st') =>
              match LambdaHooks.on_loop_error self e st' with
              | (Normal LambdaHooks.Break, st'') => (Normal LambdaHooks.Finished, st'')
              | (Normal LambdaHooks.Continue, st'') =>
                  LambdaHooks.startEventLoop self fuel st''
              | (Throw e', st'') => (Throw e', st'')
              | (Halted s, st'') => (Halted s, st'')
              end
          | (Halted s, st') => (Halted s, st')
          end
        else if strict_eq_str (eventType event) "INVOKE" then
          match LambdaHooks.handleInvoke (EvNext event) polled with
          | (Normal _, st') => LambdaHooks.startEventLoop self fuel st'
          | (Throw e, st') =>
              match LambdaHooks.on_loop_error self e st' with
              | (Normal LambdaHooks.Break, st'') => (Normal LambdaHooks.Finished, st'')
              | (Normal LambdaHooks.Continue, st'') =>
                  LambdaHooks.startEventLoop self fuel st''
              | (Throw e', st'') => (Throw e', st'')
              | (Halted s, st'') => (Halted s, st'')
              end
          | (Halted s, st') => (Halted s, st')
          end
        else LambdaHooks.startEventLoop self fuel polled
    | (Throw e, polled) =>
        match LambdaHooks.on_loop_error self e polled with
        | (Normal LambdaHooks.Break, st') => (Normal LambdaHooks.Finished, st')
        | (Normal LambdaHooks.Continue, st') => LambdaHooks.startEventLoop self fuel st'
        | (Throw e', st') => (Throw e', st')
        | (Halted s, st') => (Halted s, st')
        end
    | (Halted s, polled) => (Halted s, polled)
    end.
Proof.
  intros Hrun. simpl. unfold bind at 1, get. rewrite Hrun.
  unfold bind at 1, try_catch, LambdaHooks.poll_and_dispatch, bind at 1, get.
  unfold bind at 1.
  destruct (client_nextEvent _ _ st) as [[event|e|s] polled]; [| |done].
  - destruct (strict_eq_str (eventType event) "SHUTDOWN").
    + unfold bind at 1.
      destruct (LambdaHooks.handleShutdown _ polled) as [[[]|e|s] st']; try done.
      destruct (LambdaHooks.on_loop_error self e st') as [[[|]|e'|s] st'']; done.
    + destruct (strict_eq_str (eventType event) "INVOKE"); [|done].
      unfold bind at 1.
      destruct (LambdaHooks.handleInvoke _ polled) as [[[]|e|s] st']; try done.
      destruct (LambdaHooks.on_loop_error self e st') as [[[|]|e'|s] st'']; done.
  - destruct (LambdaHooks.on_loop_error self e polled) as [[[|]|e'|s] st']; done.
Qed.

Lemma on_loop_error_not_fatal (self : LambdaHooks.Instance) (e : JsError) (st : State) :
  isFatal e = false →
  LambdaHooks.on_loop_error self e st
  = (Normal LambdaHooks.Continue,
     add_effects [ConsoleError "Error in event loop:" e] st).
Proof.
  intros He. unfold LambdaHooks.on_loop_error, bind, console_error, emit, modify.
  by rewrite He.
Qed.

(** X17: with the client of the library a poll that fails never ends the
    loop, whatever the failure: the error is logged and the loop polls
    again. *)
Theorem loop_retries_after_failed_poll (self : LambdaHooks.Instance)
    (options : ExtensionClient.Options) (fuel : nat) (st polled : State) (e : JsError) :
  uses_library_client self options →
  isRunning st = true →
  ExtensionClient.nextEvent (st_extensionId st) st = (Throw e, polled) →
  LambdaHooks.startEventLoop self (S fuel) st
  = LambdaHooks.startEventLoop self fuel
      (add_effects [ConsoleError "Error in event loop:" e] polled).
Proof.
  intros Hlib Hrun Hpoll. rewrite (loop_turn _ _ _ Hrun), Hlib. simpl.
  rewrite Hpoll, on_loop_error_not_fatal; [done|].
  eapply nextEvent_errors_not_fatal, Hpoll.
Qed.

Lemma loop_retries_after_failed_poll_example :
  LambdaHooks.startEventLoop sample_instance 2
    (running_with handler_A [reply 500 JUndefined JUndefined; shutdown_reply])
  = LambdaHooks.startEventLoop sample_instance 1
      (add_effects
         [ConsoleError "Error in event loop:"
            (LambdaHookError "API_ERROR" "API request failed" (StatusData 500 "") false)]
         (after_io [poll_request (JStr "id-1")] [shutdown_reply]
            (running_with handler_A [reply 500 JUndefined JUndefined; shutdown_reply]))).
Proof.
  apply (loop_retries_after_failed_poll sample_instance library_options 1
           (running_with handler_A [reply 500 JUndefined JUndefined; shutdown_reply])).
  - reflexivity.
  - vm_compute. reflexivity.
  - vm_compute. reflexivity.
Defined.



(** X19: an event whose type is neither SHUTDOWN nor INVOKE is dropped: no
    hook runs, nothing is logged, and the loop polls again. *)
Theorem loop_ignores_other_events (self : LambdaHooks.Instance) (fuel : nat)
    (st polled : State) (event : NextEvent) :
  isRunning st = true →
  client_nextEvent (LambdaHooks.i_extensionClient self) (st_extensionId st) st
  = (Normal event, polled) →
  eventType event ≠ JStr "SHUTDOWN" →
  eventType event ≠ JStr "INVOKE" →
  LambdaHooks.startEventLoop self (S fuel) st
  = LambdaHooks.startEventLoop self fuel polled.
Proof.
  intros Hrun Hpoll Hs Hi.
  assert (Hne : ∀ text, eventType event ≠ JStr text →
            strict_eq_str (eventType event) text = false).
  { intros text H. destruct (eventType event) as [| | | |s| |]; simpl; try done.
    apply String.eqb_neq. congruence. }
  by rewrite (loop_turn _ _ _ Hrun), Hpoll, (Hne _ Hs), (Hne _ Hi).
Qed.

Lemma loop_ignores_other_events_example :
  LambdaHooks.startEventLoop sample_instance 1
    (running_with handler_A [reply 200 JUndefined JUndefined])
  = LambdaHooks.startEventLoop sample_instance 0
      (after_io [poll_request (JStr "id-1")] []
         (running_with handler_A [reply 200 JUndefined JUndefined])).
Proof.
  apply (loop_ignores_other_events sample_instance 0
           (running_with handler_A [reply 200 JUndefined JUndefined])
           (after_io [poll_request (JStr "id-1")] []
              (running_with handler_A [reply 200 JUndefined JUndefined]))
           {| eventType := JUndefined;
              deadlineMs := JNum 1596036475071;
              requestId := JUndefined;
              invokedFunctionArn := JUndefined;
              tracing := JUndefined;
              shutdownReason := JUndefined |}).
  - vm_compute. reflexivity.
  - vm_compute. reflexivity.
  - discriminate.
  - discriminate.
Defined.

(** One turn of the loop of the library's client on a reply that is not a
    SHUTDOWN event: one request, the INVOKE hooks if the reply is an INVOKE
    event, and on to the next turn. *)
Lemma library_turn (self : LambdaHooks.Instance) (options : ExtensionClient.Options)
    (fuel : nat) (st : State) (reply : HostReply) (rest : list HostReply) :
  uses_library_client self options →
  isRunning st = true →
  truthy (st_extensionId st) = true →
  host st = reply :: rest →
  is_shutdown reply = false →
  (∀ event, dispatch_settles "INVOKE" event st = true) →
  ∃ es,
    LambdaHooks.startEventLoop self (S fuel) st
    = LambdaHooks.startEventLoop self fuel (after_io es rest st)
    ∧ length (requests es) = 1%nat
    ∧ launched "SHUTDOWN" es = []
    ∧ launched "INVOKE" es
      = if is_invoke reply then map handler (entries_of "INVOKE" st) else [].
Proof.
  intros Hlib Hrun Hid Hhost Hkind Hsettles.
  rewrite (loop_turn _ _ _ Hrun), Hlib. simpl client_nextEvent.
  rewrite (nextEvent_eq _ _ Hid), Hhost. simpl tail.
  unfold is_shutdown, is_invoke, poll_kind in *.
  destruct reply as [res|err]; simpl answer.
  - destruct (ExtensionClient.is_2xx (statusCode res)).
    + simpl eventType.
      destruct (strict_eq_str (parsed_eventType res) "SHUTDOWN"); [done|].
      destruct (strict_eq_str (parsed_eventType res) "INVOKE").
      * destruct (handleInvoke_eq (EvNext (event_of res))
                    (after_io [poll_request (st_extensionId st)] rest st)
                    (Hsettles _))
          as (es & -> & Hl & Hs & Hq).
        rewrite add_effects_after_io. eexists. split; [done|].
        rewrite requests_app, !launched_app, Hq, Hl, Hs. done.
      * by exists [poll_request (st_extensionId st)].
    + lazy beta iota. rewrite on_loop_error_not_fatal by done.
      rewrite add_effects_after_io. by eexists.
  - lazy beta iota. rewrite on_loop_error_not_fatal by done.
    rewrite add_effects_after_io. by eexists.
Qed.

(** The turn on a SHUTDOWN event: one request, the SHUTDOWN hooks, the end. *)
Lemma library_last_turn (self : LambdaHooks.Instance) (options : ExtensionClient.Options)
    (fuel : nat) (st : State) (reply : HostReply) (rest : list HostReply) :
  uses_library_client self options →
  isRunning st = true →
  truthy (st_extensionId st) = true →
  host st = reply :: rest →
  is_shutdown reply = true →
  (∀ event, dispatch_settles "SHUTDOWN" event st = true) →
  ∃ es,
    LambdaHooks.startEventLoop self (S fuel) st
    = (Normal LambdaHooks.Finished, set_isRunning false (after_io es rest st))
    ∧ length (requests es) = 1%nat
    ∧ launched "SHUTDOWN" es = map handler (entries_of "SHUTDOWN" st)
    ∧ launched "INVOKE" es = [].
Proof.
  intros Hlib Hrun Hid Hhost Hkind Hsettles.
  rewrite (loop_turn _ _ _ Hrun), Hlib. simpl client_nextEvent.
  rewrite (nextEvent_eq _ _ Hid), Hhost. simpl tail.
  unfold is_shutdown, poll_kind in *.
  destruct reply as [res|err]; [|done]. simpl answer.
  destruct (ExtensionClient.is_2xx (statusCode res)); [|done].
  simpl eventType.
  destruct (strict_eq_str (parsed_eventType res) "SHUTDOWN") eqn:Hs.
  - destruct (handleShutdown_effects (EvNext (event_of res))
                (after_io [poll_request (st_extensionId st)] rest st)
                (Hsettles _))
      as (es & -> & Hl & Hi & Hq).
    rewrite add_effects_after_io. eexists. split; [done|].
    rewrite requests_app, !launched_app, Hq, Hl, Hi. done.
  - by destruct (strict_eq_str (parsed_eventType res) "INVOKE").
Qed.

(** X20: a whole run of the loop of the library's client, with INVOKE and
    SHUTDOWN hooks whose dispatch settles on every event (a handler rejects
    or all resolve).  If the host
    answers the polls with replies of which none is a SHUTDOWN event and
    then with a SHUTDOWN event, the loop sends one request per reply, runs
    the INVOKE hooks once for every INVOKE event, in the order the events
    came, and no SHUTDOWN hook before the end, rides out every failed poll
    and every other event, then runs the SHUTDOWN hooks once and ends with
    [#isRunning] cleared, leaving to the host what it had to say after the
    SHUTDOWN event. *)
Theorem loop_runs_until_shutdown (self : LambdaHooks.Instance)
    (options : ExtensionClient.Options) (spare : nat) (before : list HostReply)
    (last : HostReply) (rest : list HostReply) (st : State) :
  uses_library_client self options →
  isRunning st = true →
  truthy (st_extensionId st) = true →
  host st = before ++ last :: rest →
  Forall (λ reply, is_shutdown reply = false) before →
  is_shutdown last = true →
  (∀ event, dispatch_settles "INVOKE" event st = true) →
  (∀ event, dispatch_settles "SHUTDOWN" event st = true) →
  ∃ es,
    LambdaHooks.startEventLoop self (S (length before + spare)) st
    = (Normal LambdaHooks.Finished, set_isRunning false (after_io es rest st))
    ∧ length (requests es) = S (length before)
    ∧ launched "INVOKE" es
      = flat_map (λ reply, if is_invoke reply
                           then map handler (entries_of "INVOKE" st) else []) before
    ∧ launched "SHUTDOWN" es = map handler (entries_of "SHUTDOWN" st).
Proof.
  intros Hlib Hrun Hid Hhost Hbefore Hlast Hinv Hshut.
  revert st Hrun Hid Hhost Hinv Hshut.
  induction Hbefore as [|reply before Hreply _ IH]; intros st Hrun Hid Hhost Hinv Hshut.
  - destruct (library_last_turn self options (length (@nil HostReply) + spare) st last rest
                Hlib Hrun Hid Hhost Hlast Hshut) as (es & Hloop & Hq & Hs & Hi).
    exists es. by rewrite Hloop, Hq, Hs, Hi.
  - destruct (library_turn self options (length (reply :: before) + spare) st reply
                (before ++ last :: rest) Hlib Hrun Hid Hhost Hreply Hinv)
      as (es1 & Hloop & Hq1 & Hs1 & Hi1).
    destruct (IH (after_io es1 (before ++ last :: rest) st) Hrun Hid eq_refl
                Hinv Hshut)
      as (es2 & Hloop2 & Hq2 & Hi2 & Hs2).
    exists (es1 ++ es2). rewrite Hloop. simpl length. simpl Nat.add.
    rewrite Hloop2, after_io_twice.
    split; [done|].
    rewrite requests_app, length_app, !launched_app, Hq1, Hq2, Hs1, Hi1, Hi2, Hs2.
    done.
Qed.

Lemma loop_runs_until_shutdown_example :
  ∃ es,
    LambdaHooks.startEventLoop sample_instance (S (length [invoke_reply;
       reply 502 JUndefined JUndefined; invoke_reply] + 4))
      (snd (LambdaHooks.onInvoke (HookRegistry.Single (HookRegistry.Function handler_B))
              no_options
              (running_with handler_A
                 [invoke_reply; reply 502 JUndefined JUndefined; invoke_reply;
                  shutdown_reply; invoke_reply])))
    = (Normal LambdaHooks.Finished,
       set_isRunning false
         (after_io es [invoke_reply]
            (snd (LambdaHooks.onInvoke
                    (HookRegistry.Single (HookRegistry.Function handler_B)) no_options
                    (running_with handler_A
                       [invoke_reply; reply 502 JUndefined JUndefined; invoke_reply;
                        shutdown_reply; invoke_reply])))))
    ∧ length (requests es) = 4%nat
    ∧ launched "INVOKE" es = [handler_B; handler_B]
    ∧ launched "SHUTDOWN" es = [handler_A].
Proof.
  destruct (loop_runs_until_shutdown sample_instance library_options 4
              [invoke_reply; reply 502 JUndefined JUndefined; invoke_reply]
              shutdown_reply [invoke_reply]
              (snd (LambdaHooks.onInvoke
                      (HookRegistry.Single (HookRegistry.Function handler_B)) no_options
                      (running_with handler_A
                         [invoke_reply; reply 502 JUndefined JUndefined; invoke_reply;
                          shutdown_reply; invoke_reply]))))
    as (es & Hloop & Hq & Hi & Hs).
  - reflexivity.
  - vm_compute. reflexivity.
  - vm_compute. reflexivity.
  - vm_compute. reflexivity.
  - repeat constructor.
  - reflexivity.
  - intros event. vm_compute. reflexivity.
  - intros event. vm_compute. reflexivity.
  - exists es. split; [exact Hloop|]. split; [exact Hq|]. split.
    + etransitivity; [exact Hi|]. vm_compute. reflexivity.
    + etransitivity; [exact Hs|]. vm_compute. reflexivity.
Defined.

(** ** [start] *)

(** [start] on a controller that is not running, with the client of the
    library, up to the end of the registration request. *)
Lemma start_unfold (self : LambdaHooks.Instance) (options : ExtensionClient.Options)
    (st : State) :
  uses_library_client self options →
  isRunning st = false →
  LambdaHooks.start self st
  = let registered := after_io [register_request options (subscription self)]
                        (tail (host st)) st in
    let fail := report_and_rethrow in
    match answer (host st) with
    | Normal res =>
        if truthy (identifierHeader res) then
          let identified := set_extensionId (identifierHeader res) registered in
          let prefetch :=
            if strict_eq_str (LambdaHooks.i_initLoad self) "after"
            then ExtensionClient.nextEvent (identifierHeader res) identified
            else (Normal (event_of res), identified) in
          match prefetch with
          | (Normal _, fetched) =>
              match HookRegistry.executeHooks "INIT"
                      (EvRegistration (registration_of res)) fetched with
              | (Normal _, ready) =>
                  (Normal tt,
                   set_isRunning true
                     (set_listeners (listeners ready ++ signal_listeners) ready))
              | (Throw e, st') => fail e st'
              | (Halted s, st') => (Halted s, st')
              end
          | (Throw e, st') => fail e st'
          | (Halted s, st') => (Halted s, st')
          end
        else
          fail (LambdaHookError "INVALID_RESPONSE"
                  "Extension ID not received in registration response" NoCause false)
            registered
    | Throw e => fail e registered
    | Halted s => (Halted s, registered)
    end.
Proof.
  intros Hlib Hrun.
  destruct self as [type load client]. unfold uses_library_client in Hlib.
  simpl in Hlib. subst client.
  unfold LambdaHooks.start, bind at 1, get. rewrite Hrun.
  unfold try_catch at 1, bind at 1.
  cbn [LambdaHooks.i_extensionClient LambdaHooks.i_extensionType
       LambdaHooks.i_initLoad ExtensionClient.createExtensionClient
       client_register client_nextEvent client_reportInitError].
  unfold subscription. cbn [LambdaHooks.i_extensionType].
  rewrite client_register_eq.
  assert (Hfail : ∀ error st',
    (try_catch (ExtensionClient.reportInitError (registration_failed error))
       (λ reportError,
          console_error "Failed to report initialization error:" reportError);;
     throw (registration_failed error)) st'
    = report_and_rethrow error st').
  { intros error st'.
    unfold report_and_rethrow, bind, try_catch, throw, console_error, emit, modify.
    destruct (ExtensionClient.reportInitError _ st') as [[[]|e|s] st'']; done. }
  fold (registration_failed).
  destruct (answer (host st)) as [res|e|s]; lazy zeta beta iota; [|apply Hfail|done].
  destruct (truthy (identifierHeader res)); [|apply Hfail].
  lazy beta iota. unfold bind at 1, modify at 1. lazy beta iota.
  unfold bind at 1.
  destruct (strict_eq_str load "after").
  - unfold bind at 1. cbn [extensionId registration_of].
    destruct (ExtensionClient.nextEvent _ _) as [[ev|e|s] fetched];
      lazy beta iota; [|apply Hfail|done].
    unfold ret at 1. lazy beta iota. unfold bind at 1.
    destruct (HookRegistry.executeHooks _ _ fetched) as [[[]|e|s] ready];
      lazy beta iota; [|apply Hfail|done].
    unfold LambdaHooks.process_once, bind, get, modify, signal_listeners.
    simpl. by rewrite <- app_assoc.
  - unfold ret at 1. lazy beta iota. unfold bind at 1.
    destruct (HookRegistry.executeHooks _ _ _) as [[[]|e|s] ready];
      lazy beta iota; [|apply Hfail|done].
    unfold LambdaHooks.process_once, bind, get, modify, signal_listeners.
    simpl. by rewrite <- app_assoc.
Qed.



Lemma after_io_same_host (es : list Effect) (st : State) :
  after_io es (host st) st = add_effects es st.
Proof. by destruct st. Qed.

(** The [catch] block ends in the wrapped error, or stays pending in the
    report; it touches the trace and the host conversation only. *)
Lemma report_and_rethrow_outcome (error : JsError) (st : State) :
  ∃ es replies,
    snd (report_and_rethrow error st) = after_io es replies st
    ∧ (fst (report_and_rethrow error st) = Throw (registration_failed error)
       ∨ fst (report_and_rethrow error st) = Halted Blocked)
    ∧ (∀ phase, launched phase es = []).
Proof.
  unfold report_and_rethrow, ExtensionClient.reportInitError. rewrite report_eq.
  destruct (globalThis st !! "extensionId") as [extensionId|].
  - destruct (truthy extensionId).
    + destruct (host st) as [|[res|err] rest]; simpl.
      * do 2 eexists. split; [done|]. split; [by right|done].
      * destruct (ExtensionClient.is_2xx (statusCode res)); simpl.
        -- do 2 eexists. split; [done|]. split; [by left|done].
        -- rewrite add_effects_after_io. do 2 eexists. split; [done|].
           split; [by left|done].
      * rewrite add_effects_after_io. do 2 eexists. split; [done|].
        split; [by left|done].
    + simpl. exists [ConsoleError "Failed to report initialization error:"
                       (LambdaHookError "INVALID_STATE"
                          "Cannot report init error: Extension not registered" NoCause false)],
               (host st).
      rewrite after_io_same_host. split; [done|]. split; [by left|done].
  - simpl. exists [ConsoleError "Failed to report initialization error:"
                     (ReferenceError "extensionId is not defined")], (host st).
    rewrite after_io_same_host. split; [done|]. split; [by left|done].
Qed.



(** X22: a registration that fails.  When [register] of the client throws,
    [start] never returns normally: it throws EXTENSION_REGISTRATION_FAILED
    with the error of [register] as cause (or stays pending in the report
    of the failure); the failure of the report itself is never what the
    caller gets.  The controller is left not running, with no identifier
    and no listener added, and no hook has been launched. *)
Theorem start_fails_when_registration_fails (self : LambdaHooks.Instance)
    (options : ExtensionClient.Options) (st : State) (e : JsError) :
  uses_library_client self options →
  isRunning st = false →
  fst (ExtensionClient.register options (subscription self) st) = Throw e →
  ∃ es replies,
    snd (LambdaHooks.start self st) = after_io es replies st
    ∧ (fst (LambdaHooks.start self st) = Throw (registration_failed e)
       ∨ fst (LambdaHooks.start self st) = Halted Blocked)
    ∧ ∀ phase, launched phase es = [].
Proof.
  intros Hlib Hrun Hreg.
  rewrite (start_unfold _ _ _ Hlib Hrun). rewrite client_register_eq in Hreg.
  simpl in Hreg. lazy zeta.
  assert (Hfail : ∀ error,
    ∃ es replies,
      snd (report_and_rethrow error
             (after_io [register_request options (subscription self)] (tail (host st)) st))
      = after_io es replies st
      ∧ (fst (report_and_rethrow error
                (after_io [register_request options (subscription self)]
                   (tail (host st)) st)) = Throw (registration_failed error)
         ∨ fst (report_and_rethrow error
                  (after_io [register_request options (subscription self)]
                     (tail (host st)) st)) = Halted Blocked)
      ∧ ∀ phase, launched phase es = []).
  { intros error.
    destruct (report_and_rethrow_outcome error
                (after_io [register_request options (subscription self)]
                   (tail (host st)) st)) as (es & replies & -> & Hr & Hl).
    rewrite after_io_twice. do 2 eexists. split; [done|]. split; [done|].
    intros phase. rewrite launched_app, Hl. done. }
  destruct (answer (host st)) as [res|e'|s]; [| |done].
  - destruct (truthy (identifierHeader res)); [done|].
    injection Hreg as <-. apply Hfail.
  - injection Hreg as <-. apply Hfail.
Qed.

Lemma start_fails_when_registration_fails_example :
  ∃ es replies,
    snd (LambdaHooks.start sample_instance
           (LambdaHooks.fresh node_globals [reply 200 (JStr "") JUndefined]))
    = after_io es replies (LambdaHooks.fresh node_globals [reply 200 (JStr "") JUndefined])
    ∧ (fst (LambdaHooks.start sample_instance
              (LambdaHooks.fresh node_globals [reply 200 (JStr "") JUndefined]))
       = Throw (registration_failed
                  (LambdaHookError "INVALID_RESPONSE"
                     "Extension ID not received in registration response" NoCause false))
       ∨ fst (LambdaHooks.start sample_instance
                (LambdaHooks.fresh node_globals [reply 200 (JStr "") JUndefined]))
         = Halted Blocked).
Proof.
  destruct (start_fails_when_registration_fails sample_instance library_options
              (LambdaHooks.fresh node_globals [reply 200 (JStr "") JUndefined])
              (LambdaHookError "INVALID_RESPONSE"
                 "Extension ID not received in registration response" NoCause false))
    as (es & replies & Hst & Hr & _).
  - reflexivity.
  - reflexivity.
  - vm_compute. reflexivity.
  - exists es, replies. split; [exact Hst | exact Hr].
Defined.




